(** * Deposit estimation and payload assembly of the ticketing front end

    A shallow embedding of [calculateDepositCost] and [createPayload] from
    [apps/ticketing/src/utils/helpers.ts], with the properties the
    specification states about them.  The media helpers of the same file
    ([fileToArrayBuffer], [serializeMediaForWorker], [arrayBufferToBase64])
    and the wallet link of [apps/ticketing/src/utils/wallet.ts] follow, with
    properties read off the code.

    Modelling conventions.
    - A JavaScript string is a [string] of bytes (its UTF-8 form).
    - A [bigint] is a [Z]; [BigInt.prototype.toString] is the decimal
      rendering [pretty]; bigint division truncates towards zero ([Z.quot])
      and raises [RangeError] on a zero divisor.
    - A JavaScript [number] is either an integer or [NaN] (type [number]
      below).  Fractional values and the rounding of sums whose magnitude
      exceeds 2^53 are outside the model.
    - An object used as a map ([Record<string, V>]) is an association list in
      insertion order, which is the order [Object.keys], [Object.values] and
      [JSON.stringify] enumerate string keys in (keys that are array indices
      would come first; a drop identifier holds a dash and is none).
    - Exceptions are explicit results; the asynchronous function
      [createPayload] is a computation over an explicit [World]. *)

From Stdlib Require Import ZArith NArith Lia Ascii String.
From stdpp Require Import base list strings pretty.

Local Open Scope string_scope.
Local Open Scope Z_scope.

(** ** JavaScript values *)

Module JS.

(** A [number]: an integer, or the not-a-number value. *)
Inductive number : Set :=
| Int (z : Z)
| NaN.

(** [a + b] on numbers. *)
Definition add (a b : number) : number :=
  match a, b with
  | Int x, Int y => Int (x + y)
  | _, _ => NaN
  end.

Definition is_int (n : number) : bool :=
  match n with Int _ => true | NaN => false end.

(** What a [throw] carries. *)
Inductive exn : Set :=
| Error (message : string)
| TypeError
| RangeError.

Inductive Result (A : Type) : Type :=
| Ok (a : A)
| Throw (e : exn).
Arguments Ok {A} a.
Arguments Throw {A} e.

#[global] Instance result_ret : MRet Result := λ A a, Ok a.
#[global] Instance result_bind : MBind Result := λ A B k r,
  match r with
  | Ok a => k a
  | Throw e => Throw e
  end.

(** [BigInt(n)] for a number [n]: only integers convert. *)
Definition BigInt (n : number) : Result Z :=
  match n with
  | Int z => Ok z
  | NaN => Throw RangeError
  end.

(** [a / b] on bigints. *)
Definition bigint_div (a b : Z) : Result Z :=
  if Z.eqb b 0 then Throw RangeError else Ok (Z.quot a b).

(** [x.toString()] on a bigint. *)
Definition toString (x : Z) : string := pretty x.

(** [x ?? d]. *)
Definition nullish {A} (x : option A) (d : A) : A :=
  match x with Some a => a | None => d end.

(** An object used as a string-keyed map, in insertion order. *)
Definition Obj (V : Type) : Type := list (string * V).

(** [o[k] = v]: an existing key keeps its place, a new key goes last. *)
Fixpoint set {V} (k : string) (v : V) (o : Obj V) : Obj V :=
  match o with
  | [] => [(k, v)]
  | (k', v') :: o' =>
      if String.eqb k' k then (k', v) :: o' else (k', v') :: set k v o'
  end.

Definition keys {V} (o : Obj V) : list string := map fst o.
Definition values {V} (o : Obj V) : list V := map snd o.

End JS.

Import JS.

(** ** The data model of [helpers.ts] *)

Record DateAndTimeInfo := {
  startDate : number;
  startTime : option string;
  endDate : option number;
  endTime : option string;
}.

(** A [FileList] only passes through the serialiser; a file is its name. *)
Definition FileList : Type := list string.

Record TicketInfoFormMetadata := {
  name : string;
  denomination : string;
  maxSupply : option number;
  maxPurchases : option number;
  priceNear : option string;
  priceFiat : option string;
  description : option string;
  artwork : option FileList;
  salesValidThrough : option DateAndTimeInfo;
  passValidThrough : option DateAndTimeInfo;
}.

Record TicketInfoMetadata := {
  tim_name : string;
  tim_description : option string;
  tim_artwork : option string;
  tim_extra : option string;
}.

Record TicketMetadataExtra := {
  tme_eventId : string;
  tme_dateCreated : string;
  tme_limitPerUser : option number;
  tme_priceNear : option string;
  tme_priceFiat : option string;
  tme_maxSupply : option number;
  tme_salesValidThrough : option DateAndTimeInfo;
  tme_passValidThrough : option DateAndTimeInfo;
}.

Record FunderEventMetadata := {
  fem_nearCheckout : option bool;
  fem_name : string;
  fem_id : string;
  fem_location : string;
  fem_date : DateAndTimeInfo;
  fem_artwork : string;
  fem_dateCreated : string;
  fem_description : option string;
  fem_sellable : option bool;
  pubKey : option string;
  encPrivKey : option string;
  iv : option string;
  salt : option string;
}.

Definition FunderMetadata : Type := Obj FunderEventMetadata.

Inductive CheckoutType := near | stripe | both.

Record FormSchema := {
  fs_name : string;
  stripeAccountId : option string;
  acceptNearPayments : bool;
  acceptStripePayments : bool;
  fs_location : string;
  fs_date : string;
  tickets : list TicketInfoFormMetadata;
  checkoutType : CheckoutType;
  fs_description : option string;
  fs_startTime : option string;
  fs_endTime : option string;
  eventArtwork : option FileList;
}.

(** The value type of [marketTicketInfo] / [ticket_information]. *)
Record MarketListing := {
  max_tickets : number;
  price : string;
  sale_start : option number;
  sale_end : option number;
}.

Record CostBreakdown := {
  perDrop : string;
  perEvent : string;
  marketListing : string;
  total : string;
}.

(** The argument object of the [create_event] callback. *)
Record CreateEventArgs := {
  event_id : string;
  funder_id : string;
  ticket_information : Obj MarketListing;
  stripe_status : bool;
  stripe_account_id : option string;
}.

(** ** What the platform and the modules outside [helpers.ts] supply

    [JSON.stringify] and [toLocaleLowerCase] are built-ins; [getByteSize] and
    the key helpers are imported from [./crypto-helpers],
    [KEYPOM_MARKETPLACE_CONTRACT] from [./common].  The functions that draw
    randomness take the draw as their first argument. *)

Definition CryptoKey : Type := string.

Class Platform := {
  stringify_tickets : list TicketInfoFormMetadata → string;
  stringify_event : FunderEventMetadata → string;
  stringify_extra : TicketMetadataExtra → string;
  stringify_funder : FunderMetadata → string;
  stringify_args : CreateEventArgs → string;
  getByteSize : string → N;
  toLocaleLowerCase : string → string;
  Date_parse : string → number;
  KEYPOM_MARKETPLACE_CONTRACT : string;
  generateKeyPair : nat → CryptoKey * CryptoKey;
  getRandomValues : nat → nat → string;
  uint8ArrayToBase64 : string → string;
  deriveKeyFromPassword : string → string → CryptoKey;
  encryptPrivateKey : nat → CryptoKey → CryptoKey → string * string;
  exportPublicKeyToBase64 : CryptoKey → string;
}.

(** ** The deposit estimator *)

Definition FIRST_DROP_BASE_COST : Z := 15899999999999900000000.
Definition SUBSEQUENT_DROP_BASE_COST : Z := 14460000000000200000000.
Definition FUNDER_METADATA_BASE_COST : Z := 840000000000000000000.
Definition FIRST_MARKET_DROP_BASE_COST : Z := 11790000000000000000000.
Definition SUBSEQUENT_MARKET_DROP_BASE_COST : Z := 6810000000000000000000.
Definition YOCTO_PER_BYTE : Z := 15000000000000000000.

Definition BASE_MARKET_BYTES_PER_KEY : Z := 800.
Definition METADATA_MARKET_BYTES_PER_KEY : Z := 900.

Section Estimator.
Context {P : Platform}.

(** The body of the loop over [Object.values(marketTicketInfo)]. *)
Definition countStep (numFreeKeys : number) (keyInfo : MarketListing) : number :=
  if String.eqb (price keyInfo) "0"
  then JS.add numFreeKeys (max_tickets keyInfo)
  else numFreeKeys.

(** The loop, from [numFreeKeys = 0]. *)
Definition countFreeKeys (listings : list MarketListing) : number :=
  fold_left countStep listings (Int 0).

Definition calculateDepositCost
    (eventMetadata : FunderEventMetadata)
    (tickets : list TicketInfoFormMetadata)
    (marketTicketInfo : Obj MarketListing) : Result CostBreakdown :=
  let marketDeposit := FIRST_MARKET_DROP_BASE_COST in
  let dropDeposit := FIRST_DROP_BASE_COST in
  let funderMetaCost := FUNDER_METADATA_BASE_COST in
  let dropDeposit :=
    dropDeposit + (Z.of_nat (length tickets) - 1) * SUBSEQUENT_DROP_BASE_COST in
  let dropDeposit :=
    dropDeposit + Z.of_N (getByteSize (stringify_tickets tickets)) * YOCTO_PER_BYTE in
  let funderMetaCost :=
    funderMetaCost
    + Z.of_N (getByteSize (stringify_event eventMetadata)) * YOCTO_PER_BYTE in
  let marketDeposit :=
    marketDeposit
    + (Z.of_nat (length (JS.keys marketTicketInfo)) - 1)
      * SUBSEQUENT_MARKET_DROP_BASE_COST in
  let numFreeKeys := countFreeKeys (JS.values marketTicketInfo) in
  freeKeys ← BigInt numFreeKeys;
  let marketDeposit :=
    marketDeposit
    + freeKeys * (BASE_MARKET_BYTES_PER_KEY + METADATA_MARKET_BYTES_PER_KEY)
      * YOCTO_PER_BYTE * 2 in
  perDropAmount ← bigint_div dropDeposit (Z.of_nat (length tickets));
  Ok {| perDrop := toString perDropAmount;
        perEvent := toString funderMetaCost;
        marketListing := toString marketDeposit;
        total := toString (dropDeposit + funderMetaCost + marketDeposit) |}.

End Estimator.

(** ** String methods used by the payload builder *)

Module Str.

(** [s.replaceAll(' ', '')], and more generally dropping one character. *)
Fixpoint remove (c : ascii) (s : string) : string :=
  match s with
  | EmptyString => EmptyString
  | String a s' => if Ascii.eqb a c then remove c s' else String a (remove c s')
  end.

(** White space as [trim] sees it, within ASCII. *)
Definition is_space (a : ascii) : bool :=
  let n := nat_of_ascii a in
  (Nat.eqb n 32 || (Nat.leb 9 n && Nat.leb n 13))%bool.

Fixpoint trimStart (s : string) : string :=
  match s with
  | String a s' => if is_space a then trimStart s' else s
  | EmptyString => EmptyString
  end.

Fixpoint trimEnd (s : string) : string :=
  match s with
  | EmptyString => EmptyString
  | String a s' =>
      match trimEnd s' with
      | EmptyString => if is_space a then EmptyString else String a EmptyString
      | t => String a t
      end
  end.

Definition trim (s : string) : string := trimEnd (trimStart s).

(** [s.split(c)]: the pieces between the occurrences of [c]. *)
Fixpoint split (c : ascii) (s : string) : list string :=
  match s with
  | EmptyString => [EmptyString]
  | String a s' =>
      if Ascii.eqb a c then EmptyString :: split c s'
      else match split c s' with
           | piece :: pieces => String a piece :: pieces
           | [] => [String a EmptyString]
           end
  end.

Fixpoint repeat (a : ascii) (n : nat) : string :=
  match n with
  | O => EmptyString
  | S n' => String a (repeat a n')
  end.

(** [s.padEnd(n, c)]. *)
Definition padEnd (n : nat) (c : ascii) (s : string) : string :=
  s ++ repeat c (n - String.length s).

(** [s.replace(/^0+/, '')]. *)
Fixpoint dropLeading (c : ascii) (s : string) : string :=
  match s with
  | String a s' => if Ascii.eqb a c then dropLeading c s' else s
  | EmptyString => EmptyString
  end.

(** [!s] for a possibly undefined string. *)
Definition falsy (s : option string) : bool :=
  match s with
  | None => true
  | Some s => String.eqb s ""
  end.

(** [s || d]. *)
Definition or_else (s : option string) (d : string) : string :=
  if falsy s then d else nullish s d.

End Str.

(** ** [parseNearAmount] of near-api-js ([utils/format]) *)

Module NearApi.

Definition NEAR_NOMINATION_EXP : nat := 24.

Definition cleanupAmount (amount : string) : string :=
  Str.trim (Str.remove "," amount).

Definition trimLeadingZeroes (value : string) : string :=
  let value := Str.dropLeading "0" value in
  if String.eqb value "" then "0" else value.

(** [null] is [None]; the amount is a string at every call site here. *)
Definition parseNearAmount (amt : string) : Result (option string) :=
  if Str.falsy (Some amt) then Ok None
  else
    let amt := cleanupAmount amt in
    let split := Str.split "." amt in
    let wholePart := nullish (head split) "" in
    let fracPart := Str.or_else (split !! 1%nat) "" in
    if (Nat.ltb 2 (length split)
        || Nat.ltb NEAR_NOMINATION_EXP (String.length fracPart))%bool
    then Throw (Error ("Cannot parse '" ++ amt ++ "' as NEAR amount"))
    else Ok (Some (trimLeadingZeroes
                     (wholePart ++ Str.padEnd NEAR_NOMINATION_EXP "0" fracPart))).

End NearApi.

Import NearApi.

(** ** The world [createPayload] runs in *)

(** Calls that leave [helpers.ts]; the world logs them, latest first. *)
Inductive Call : Set :=
| CallDateNow
| CallGenerateKeyPair
| CallGetRandomValues
| CallDeriveKeyFromPassword
| CallEncryptPrivateKey
| CallExportPublicKey
| CallShift.

Record World := {
  (** The strings kept in local storage. *)
  localStorage : Obj string;
  (** The successive readings of [Date.now()], and how many were taken. *)
  clock : nat → N;
  reads : nat;
  (** How many random draws were made. *)
  draws : nat;
  (** The caller's [ticketArtworkCids] array. *)
  ticketArtworkCids : list string;
  calls : list Call;
}.

Definition M (A : Type) : Type := World → Result A * World.

#[global] Instance M_ret : MRet M := λ A a w, (Ok a, w).
#[global] Instance M_bind : MBind M := λ A B k m w,
  match m w with
  | (Ok a, w') => k a w'
  | (Throw e, w') => (Throw e, w')
  end.

Definition throw {A} (e : exn) : M A := λ w, (Throw e, w).

Definition lift {A} (r : Result A) : M A := λ w, (r, w).

(** Note the call [c] in the log. *)
Definition logCall (c : Call) : M () := λ w,
  (Ok (),
   {| localStorage := localStorage w; clock := clock w; reads := reads w;
      draws := draws w; ticketArtworkCids := ticketArtworkCids w;
      calls := c :: calls w |}).

Fixpoint lookup_key {V} (k : string) (o : Obj V) : option V :=
  match o with
  | [] => None
  | (k', v) :: o' => if String.eqb k' k then Some v else lookup_key k o'
  end.

(** Modelled from the spec: [localStorageGet] of [./local-storage], which is
    not among the sources.  The master key is a string retrieved from local
    persisted state; a key that was never stored reads as [undefined]. *)
Definition localStorageGet (key : string) : M (option string) := λ w,
  (Ok (lookup_key key (localStorage w)), w).

(** [Date.now()]. *)
Definition Date_now : M N := λ w,
  (Ok (clock w (reads w)),
   {| localStorage := localStorage w; clock := clock w; reads := S (reads w);
      draws := draws w; ticketArtworkCids := ticketArtworkCids w;
      calls := CallDateNow :: calls w |}).

(** A fresh random draw, for the call [c]. *)
Definition draw (c : Call) : M nat := λ w,
  (Ok (draws w),
   {| localStorage := localStorage w; clock := clock w; reads := reads w;
      draws := S (draws w); ticketArtworkCids := ticketArtworkCids w;
      calls := c :: calls w |}).

(** [ticketArtworkCids.shift()]: [undefined] on an empty array. *)
Definition shift : M (option string) := λ w,
  (Ok (head (ticketArtworkCids w)),
   {| localStorage := localStorage w; clock := clock w; reads := reads w;
      draws := draws w; ticketArtworkCids := tail (ticketArtworkCids w);
      calls := CallShift :: calls w |}).

(** [for (const x of xs) body], threading the loop's variables. *)
Fixpoint forOf {A S} (body : S → A → M S) (xs : list A) (s : S) : M S :=
  match xs with
  | [] => mret s
  | x :: xs' => s' ← body s x; forOf body xs' s'
  end.

(** ** The payload *)

Record NftKeysConfig := { token_metadata : TicketInfoMetadata }.

Record DropConfig := {
  nft_keys_config : NftKeysConfig;
  add_key_allowlist : list string;
  transfer_key_allowlist : list string;
}.

Record AssetConfig := { permissions : string }.

Record AssetData := {
  uses : Z;
  assets : list (option string);
  config : AssetConfig;
}.

Record OnSuccess := {
  receiver_id : string;
  method_name : string;
  os_args : string;
  attached_deposit : string;
}.

Record CreateDropBatchArgs := {
  drop_ids : list string;
  drop_configs : list DropConfig;
  asset_datas : list (list AssetData);
  change_user_metadata : string;
  on_success : OnSuccess;
}.

Record FunctionCallParams := {
  methodName : string;
  args : CreateDropBatchArgs;
  gas : string;
  deposit : string;
}.

(** [Action] of the wallet selector, a union tagged by [type]. *)
Inductive Action :=
| CreateAccount
| Transfer (transfer_deposit : string)
| FunctionCall (params : FunctionCallParams)
| DeleteAccount (beneficiaryId : string).

(** The variables the loop over the tickets updates. *)
Record Drops := {
  d_drop_ids : list string;
  d_drop_configs : list DropConfig;
  d_asset_datas : list (list AssetData);
  d_ticket_information : Obj MarketListing;
}.

Section Builder.
Context {P : Platform}.

(** [ticket.name.replaceAll(' ', '').toLocaleLowerCase()]. *)
Definition slug (ticket : TicketInfoFormMetadata) : string :=
  toLocaleLowerCase (Str.remove " " (name ticket)).

(** [parseNearAmount(ticket.priceNear ?? '0')!.toString()]. *)
Definition listingPrice (ticket : TicketInfoFormMetadata) : Result string :=
  parsed ← parseNearAmount (nullish (priceNear ticket) "0");
  match parsed with
  | Some amount => Ok amount
  | None => Throw TypeError
  end.

(** One iteration of [for (const ticket of formData.tickets)]. *)
Definition ticketStep (eventId : string) (st : Drops)
    (ticket : TicketInfoFormMetadata) : M Drops :=
  now ← Date_now;
  let dropId := pretty now ++ "-" ++ slug ticket in
  created ← Date_now;
  let ticketExtra :=
    {| tme_dateCreated := pretty created;
       tme_priceNear := Some (nullish (priceNear ticket) "0");
       tme_priceFiat := Some (nullish (priceFiat ticket) "0");
       tme_salesValidThrough := salesValidThrough ticket;
       tme_passValidThrough := passValidThrough ticket;
       tme_maxSupply := maxSupply ticket;
       tme_limitPerUser := maxPurchases ticket;
       tme_eventId := eventId |} in
  cid ← shift;
  let ticketNftInfo :=
    {| tim_name := name ticket;
       tim_description := description ticket;
       tim_artwork := Some (Str.or_else cid "");
       tim_extra := Some (stringify_extra ticketExtra) |} in
  listed ← lift (listingPrice ticket);
  let ticket_information :=
    JS.set dropId
      {| max_tickets := nullish (maxSupply ticket) (Int 0);
         price := listed;
         sale_start := None;
         sale_end := None |}
      (d_ticket_information st) in
  let dropConfig :=
    {| nft_keys_config := {| token_metadata := ticketNftInfo |};
       add_key_allowlist := [KEYPOM_MARKETPLACE_CONTRACT];
       transfer_key_allowlist := [KEYPOM_MARKETPLACE_CONTRACT] |} in
  let assetData :=
    [ {| uses := 2; assets := [None]; config := {| permissions := "claim" |} |} ] in
  mret {| d_drop_ids := d_drop_ids st ++ [dropId];
          d_asset_datas := d_asset_datas st ++ [assetData];
          d_drop_configs := d_drop_configs st ++ [dropConfig];
          d_ticket_information := ticket_information |}.

Definition MISSING_MASTER_KEY : exn :=
  Error "Missing local storage value MASTER_KEY inside createPayload()".

Definition createPayload
    (accountId : string) (formData : FormSchema)
    (eventArtworkCid : string) (eventId : string)
    : M (list Action * list string) :=
  masterKey ← localStorageGet "MASTER_KEY";
  if Str.falsy masterKey then throw MISSING_MASTER_KEY
  else
    let masterKey := nullish masterKey "" in
    let funderMetadata : FunderMetadata := [] in
    created ← Date_now;
    (* [if (formData)] holds for every object: the keys are always made *)
    seed ← draw CallGenerateKeyPair;
    let '(publicKey, privateKey) := generateKeyPair seed in
    seed ← draw CallGetRandomValues;
    let saltBytes := getRandomValues seed 16 in
    let saltBase64 := uint8ArrayToBase64 saltBytes in
    _ ← logCall CallDeriveKeyFromPassword;
    let symmetricKey := deriveKeyFromPassword masterKey saltBase64 in
    seed ← draw CallEncryptPrivateKey;
    let '(encryptedPrivateKeyBase64, ivBase64) :=
      encryptPrivateKey seed privateKey symmetricKey in
    _ ← logCall CallExportPublicKey;
    let eventMetadata :=
      {| fem_nearCheckout := None;
         fem_name := fs_name formData;
         fem_dateCreated := pretty created;
         fem_description := fs_description formData;
         fem_location := fs_location formData;
         fem_date :=
           {| startDate := Date_parse (fs_date formData);
              startTime := fs_startTime formData;
              endDate := Some (Date_parse (Str.or_else (fs_endTime formData) ""));
              endTime := fs_endTime formData |};
         fem_artwork := eventArtworkCid;
         fem_sellable := None;
         fem_id := eventId;
         pubKey := Some (exportPublicKeyToBase64 publicKey);
         encPrivKey := Some encryptedPrivateKeyBase64;
         iv := Some ivBase64;
         salt := Some saltBase64 |} in
    let funderMetadata := JS.set eventId eventMetadata funderMetadata in
    st ← forOf (ticketStep eventId) (tickets formData)
           {| d_drop_ids := []; d_drop_configs := []; d_asset_datas := [];
              d_ticket_information := [] |};
    costBreakdown ←
      lift (calculateDepositCost eventMetadata (tickets formData)
              (d_ticket_information st));
    let actions :=
      [ FunctionCall
          {| methodName := "create_drop_batch";
             args :=
               {| drop_ids := d_drop_ids st;
                  drop_configs := d_drop_configs st;
                  asset_datas := d_asset_datas st;
                  change_user_metadata := stringify_funder funderMetadata;
                  on_success :=
                    {| receiver_id := KEYPOM_MARKETPLACE_CONTRACT;
                       method_name := "create_event";
                       os_args :=
                         stringify_args
                           {| event_id := eventId;
                              funder_id := accountId;
                              ticket_information := d_ticket_information st;
                              stripe_status := acceptStripePayments formData;
                              stripe_account_id := stripeAccountId formData |};
                       attached_deposit := marketListing costBreakdown |} |};
             gas := "300000000000000";
             deposit := total costBreakdown |} ] in
    mret (actions, d_drop_ids st).

End Builder.

(** ** The estimator's amounts as the specification writes them *)

Definition sumZ (l : list Z) : Z := foldr Z.add 0 l.

(** The integer a number stands for; [NaN] stands for none. *)
Definition intOf (n : number) : Z :=
  match n with Int z => z | NaN => 0 end.

(** The keys one listing adds to the free-key count. *)
Definition freeCount (listing : MarketListing) : Z :=
  if String.eqb (price listing) "0" then intOf (max_tickets listing) else 0.

Module Formula.
Section Formula.
Context {P : Platform}.

Definition dropDeposit (tickets : list TicketInfoFormMetadata) : Z :=
  FIRST_DROP_BASE_COST
  + (Z.of_nat (length tickets) - 1) * SUBSEQUENT_DROP_BASE_COST
  + Z.of_N (getByteSize (stringify_tickets tickets)) * YOCTO_PER_BYTE.

Definition funderMetaCost (eventMetadata : FunderEventMetadata) : Z :=
  FUNDER_METADATA_BASE_COST
  + Z.of_N (getByteSize (stringify_event eventMetadata)) * YOCTO_PER_BYTE.

(** What one listing adds: the doubled storage of its keys when free. *)
Definition freeAllowance (listing : MarketListing) : Z :=
  if String.eqb (price listing) "0"
  then intOf (max_tickets listing)
       * (BASE_MARKET_BYTES_PER_KEY + METADATA_MARKET_BYTES_PER_KEY)
       * YOCTO_PER_BYTE * 2
  else 0.

Definition marketDeposit (marketTicketInfo : Obj MarketListing) : Z :=
  FIRST_MARKET_DROP_BASE_COST
  + (Z.of_nat (length marketTicketInfo) - 1) * SUBSEQUENT_MARKET_DROP_BASE_COST
  + sumZ (map freeAllowance (JS.values marketTicketInfo)).
End Formula.
End Formula.

(** Every free listing has an integer [max_tickets]. *)
Definition freeKeysCountable (listings : list MarketListing) : bool :=
  forallb
    (λ listing,
       if String.eqb (price listing) "0" then is_int (max_tickets listing) else true)
    listings.




(** ** A platform to evaluate on

    The serialisers of this instance write only names and identifiers, the
    byte size is the length, and the key helpers tag their inputs. *)

Module Sample.

Definition lowerAscii (a : ascii) : ascii :=
  let n := nat_of_ascii a in
  if (Nat.leb 65 n && Nat.leb n 90)%bool then ascii_of_nat (n + 32) else a.

Fixpoint lower (s : string) : string :=
  match s with
  | EmptyString => EmptyString
  | String a s' => String (lowerAscii a) (lower s')
  end.

Definition join (pieces : list string) : string :=
  foldr (λ piece rest, piece ++ ";" ++ rest) "" pieces.

#[export] Instance platform : Platform := {|
  stringify_tickets ts := "[" ++ join (map name ts) ++ "]";
  stringify_event e := "{" ++ fem_id e ++ ":" ++ fem_name e ++ "}";
  stringify_extra x := "{" ++ tme_eventId x ++ "@" ++ tme_dateCreated x ++ "}";
  stringify_funder m := "{" ++ join (JS.keys m) ++ "}";
  stringify_args a :=
    "{" ++ event_id a ++ ":" ++ join (JS.keys (ticket_information a)) ++ "}";
  getByteSize s := N.of_nat (String.length s);
  toLocaleLowerCase := lower;
  Date_parse _ := NaN;
  KEYPOM_MARKETPLACE_CONTRACT := "marketplace.keypom.testnet";
  generateKeyPair seed := ("pub" ++ pretty seed, "priv" ++ pretty seed);
  getRandomValues seed len := Str.repeat "r" len;
  uint8ArrayToBase64 bytes := bytes;
  deriveKeyFromPassword password salt := password ++ "/" ++ salt;
  encryptPrivateKey seed privateKey key :=
    ("enc(" ++ privateKey ++ ")", "iv" ++ pretty seed);
  exportPublicKeyToBase64 key := key;
|}.

Definition ticket (name : string) (supply : option number)
    (priceNear : option string) : TicketInfoFormMetadata :=
  {| name := name; denomination := "Near"; maxSupply := supply;
     maxPurchases := None; priceNear := priceNear; priceFiat := None;
     description := None; artwork := None; salesValidThrough := None;
     passValidThrough := None |}.

Definition listing (n : number) (price : string) : MarketListing :=
  {| max_tickets := n; price := price; sale_start := None; sale_end := None |}.

Definition event : FunderEventMetadata :=
  {| fem_nearCheckout := None; fem_name := "Launch"; fem_id := "ev1";
     fem_location := "Lisbon";
     fem_date := {| startDate := Int 1700000000000; startTime := None;
                    endDate := None; endTime := None |};
     fem_artwork := "bafy"; fem_dateCreated := "1700000000000";
     fem_description := None; fem_sellable := None; pubKey := None;
     encPrivKey := None; iv := None; salt := None |}.

Definition form (tickets : list TicketInfoFormMetadata) : FormSchema :=
  {| fs_name := "Launch"; stripeAccountId := None; acceptNearPayments := true;
     acceptStripePayments := false; fs_location := "Lisbon";
     fs_date := "2024-05-01"; tickets := tickets; checkoutType := near;
     fs_description := None; fs_startTime := None; fs_endTime := None;
     eventArtwork := None |}.

(** A world whose clock does not advance during the call: every reading
    falls in the same millisecond. *)
Definition world (storage : Obj string) (cids : list string) : World :=
  {| localStorage := storage; clock := λ _, 1700000000000%N; reads := 0;
     draws := 0; ticketArtworkCids := cids; calls := [] |}.

Definition withKey : Obj string := [("MASTER_KEY", "secret")].

(** Two ticket types whose names differ only by a space, the first free
    with a hundred tickets, the second sold for 1 NEAR; and a third type
    with a name of its own. *)
Definition earlyFree : TicketInfoFormMetadata :=
  ticket "early bird" (Some (Int 100)) None.
Definition earlyPaid : TicketInfoFormMetadata :=
  ticket "earlybird" (Some (Int 5)) (Some "1").
Definition general : TicketInfoFormMetadata :=
  ticket "General Admission" (Some (Int 50)) (Some "2.5").

End Sample.

(** ** What the payload builder produces, ticket by ticket *)

Section BuilderOutcome.
Context {P : Platform}.

Definition priceParses (ticket : TicketInfoFormMetadata) : bool :=
  match listingPrice ticket with Ok _ => true | Throw _ => false end.

(** The listing record the loop writes for a ticket whose price parses. *)
Definition listingOf (ticket : TicketInfoFormMetadata) : MarketListing :=
  {| max_tickets := nullish (maxSupply ticket) (Int 0);
     price := match listingPrice ticket with Ok amount => amount | Throw _ => "" end;
     sale_start := None;
     sale_end := None |}.

(** The clock readings the drop identifiers are made from: the loop reads
    the clock twice per ticket, the first time for the identifier. *)
Fixpoint stampsFrom (clock : nat → N) (r : nat)
    (tickets : list TicketInfoFormMetadata) : list N :=
  match tickets with
  | [] => []
  | _ :: rest => clock r :: stampsFrom clock (S (S r)) rest
  end.

Definition dropIdOf (stamp : N) (ticket : TicketInfoFormMetadata) : string :=
  pretty stamp ++ "-" ++ slug ticket.

(** A drop identifier from a clock reading and a slug. *)
Definition stampedSlug (entry : N * string) : string :=
  pretty entry.1 ++ "-" ++ entry.2.

Definition dropIdsFrom (clock : nat → N) (r : nat)
    (tickets : list TicketInfoFormMetadata) : list string :=
  zip_with dropIdOf (stampsFrom clock r tickets) tickets.

(** The artwork each ticket receives from the front of the array. *)
Fixpoint artworksFrom (cids : list string)
    (tickets : list TicketInfoFormMetadata) : list (option string) :=
  match tickets with
  | [] => []
  | _ :: rest => Some (Str.or_else (head cids) "") :: artworksFrom (tail cids) rest
  end.

Definition artworkOf (dropConfig : DropConfig) : option string :=
  tim_artwork (token_metadata (nft_keys_config dropConfig)).

(** Successive assignments [o[k] = v]. *)
Definition assign {V} (o : Obj V) (entries : list (string * V)) : Obj V :=
  fold_left (λ o entry, JS.set entry.1 entry.2 o) entries o.

(** The world once the event metadata and its keys are made: one clock
    reading, three random draws, the array untouched. *)
Definition afterKeys (w : World) : World :=
  {| localStorage := localStorage w; clock := clock w; reads := S (reads w);
     draws := S (S (S (draws w))); ticketArtworkCids := ticketArtworkCids w;
     calls := CallExportPublicKey :: CallEncryptPrivateKey
              :: CallDeriveKeyFromPassword :: CallGetRandomValues
              :: CallGenerateKeyPair :: CallDateNow :: calls w |}.

(** The world after one iteration of the loop: two clock readings and
    one [shift]. *)
Definition afterTicket (w : World) : World :=
  {| localStorage := localStorage w; clock := clock w;
     reads := S (S (reads w)); draws := draws w;
     ticketArtworkCids := tail (ticketArtworkCids w);
     calls := CallShift :: CallDateNow :: CallDateNow :: calls w |}.

Definition noDrops : Drops :=
  {| d_drop_ids := []; d_drop_configs := []; d_asset_datas := [];
     d_ticket_information := [] |}.

(** The action array assembled from the loop's variables and the cost
    breakdown. *)
Definition actionsOf (accountId : string) (formData : FormSchema)
    (eventId : string) (eventMetadata : FunderEventMetadata)
    (st : Drops) (costBreakdown : CostBreakdown) : list Action :=
  [ FunctionCall
      {| methodName := "create_drop_batch";
         args :=
           {| drop_ids := d_drop_ids st;
              drop_configs := d_drop_configs st;
              asset_datas := d_asset_datas st;
              change_user_metadata := stringify_funder [(eventId, eventMetadata)];
              on_success :=
                {| receiver_id := KEYPOM_MARKETPLACE_CONTRACT;
                   method_name := "create_event";
                   os_args :=
                     stringify_args
                       {| event_id := eventId;
                          funder_id := accountId;
                          ticket_information := d_ticket_information st;
                          stripe_status := acceptStripePayments formData;
                          stripe_account_id := stripeAccountId formData |};
                   attached_deposit := marketListing costBreakdown |} |};
         gas := "300000000000000";
         deposit := total costBreakdown |} ].

(** What [createPayload] needs to return: a master key, at least one
    ticket, prices that parse, integer supplies on the free tickets. *)
Definition payloadReady (w : World) (formData : FormSchema) : bool :=
  (negb (Str.falsy (lookup_key "MASTER_KEY" (localStorage w)))
   && negb (Nat.eqb (length (tickets formData)) 0)
   && forallb priceParses (tickets formData)
   && freeKeysCountable (map listingOf (tickets formData)))%bool.

End BuilderOutcome.

(** A string without the separator of the drop identifiers. *)
Fixpoint dashFree (s : string) : bool :=
  match s with
  | EmptyString => true
  | String a s' => (negb (Ascii.eqb a "-") && dashFree s')%bool
  end.

(** ** Byte buffers, binary strings and base64

    A [Uint8Array] is a list of bytes.  [String.fromCharCode(b)] for a byte
    [b] is the character U+0000..U+00FF, whose UTF-8 form is one byte below
    128 and two bytes from 128 on. *)

Definition Uint8Array : Type := list ascii.

(** What a web API throws besides the errors of [JS.exn]. *)
Inductive failure : Set :=
| Thrown (e : exn)
| InvalidCharacterError
| URIError
| SyntaxError.

Inductive Outcome (A : Type) : Type :=
| Done (a : A)
| Raised (f : failure).
Arguments Done {A} a.
Arguments Raised {A} f.

#[global] Instance outcome_ret : MRet Outcome := λ A a, Done a.
#[global] Instance outcome_bind : MBind Outcome := λ A B k r,
  match r with
  | Done a => k a
  | Raised f => Raised f
  end.

(** [await promise] where the promise settles as a [Result]. *)
Definition settled {A} (r : Result A) : Outcome A :=
  match r with
  | Ok a => Done a
  | Throw e => Raised (Thrown e)
  end.

Module Latin1.

(** [String.fromCharCode(b)]. *)
Definition fromCharCode (b : ascii) : string :=
  let n := N_of_ascii b in
  if (n <? 128)%N then String b EmptyString
  else String (ascii_of_N (192 + n / 64)) (String (ascii_of_N (128 + n mod 64)) EmptyString).

(** The string whose code units are the given bytes. *)
Definition binaryString (bytes : Uint8Array) : string :=
  foldr (λ b rest, fromCharCode b ++ rest) EmptyString bytes.

(** The code units of a string, when none is above U+00FF. *)
Fixpoint codeUnits (s : string) : option Uint8Array :=
  match s with
  | EmptyString => Some []
  | String a rest =>
      let n := N_of_ascii a in
      if (n <? 128)%N then cons a <$> codeUnits rest
      else if ((n =? 194)%N || (n =? 195)%N)%bool then
        match rest with
        | String b rest' =>
            let m := N_of_ascii b in
            if ((128 <=? m)%N && (m <? 192)%N)%bool
            then cons (ascii_of_N ((n - 192) * 64 + (m - 128))) <$> codeUnits rest'
            else None
        | EmptyString => None
        end
      else None
  end.

End Latin1.

Module Base64.

Definition alphabet : string :=
  "ABCDEFGHIJKLMNOPQRSTUVWXYZabcdefghijklmnopqrstuvwxyz0123456789+/".

(** The character for a 6-bit value. *)
Definition sextetChar (n : N) : ascii :=
  nullish (String.get (N.to_nat n) alphabet) "A"%char.

Fixpoint indexFrom (i : N) (a : ascii) (s : string) : option N :=
  match s with
  | EmptyString => None
  | String b rest => if Ascii.eqb a b then Some i else indexFrom (N.succ i) a rest
  end.

(** The 6-bit value of a character of the alphabet. *)
Definition charSextet (a : ascii) : option N := indexFrom 0 a alphabet.

(** The 6-bit groups of the bytes, three bytes to four groups; one or two
    trailing bytes give two or three groups, zero bits filling the last. *)
Fixpoint sextets (bytes : Uint8Array) : list N :=
  match bytes with
  | a :: b :: c :: rest =>
      let n := (N_of_ascii a * 65536 + N_of_ascii b * 256 + N_of_ascii c)%N in
      (n / 262144 :: (n / 4096) mod 64 :: (n / 64) mod 64 :: n mod 64
       :: sextets rest)%N
  | [a; b] =>
      let n := (N_of_ascii a * 65536 + N_of_ascii b * 256)%N in
      [n / 262144; (n / 4096) mod 64; (n / 64) mod 64]%N
  | [a] =>
      let n := (N_of_ascii a * 65536)%N in
      [n / 262144; (n / 4096) mod 64]%N
  | [] => []
  end.

Definition padding (bytes : Uint8Array) : string :=
  match (length bytes mod 3)%nat with
  | 1%nat => "=="
  | 2%nat => "="
  | _ => ""
  end.

Definition chars (l : list ascii) : string := string_of_list_ascii l.

(** Forgiving-base64 encode. *)
Definition encode (bytes : Uint8Array) : string :=
  chars (map sextetChar (sextets bytes)) ++ padding bytes.

(** The bytes of the 6-bit groups, four groups to three bytes; two or three
    trailing groups give one or two bytes, their last bits dropped. *)
Fixpoint octets (groups : list N) : Uint8Array :=
  match groups with
  | s1 :: s2 :: s3 :: s4 :: rest =>
      let n := (((s1 * 64 + s2) * 64 + s3) * 64 + s4)%N in
      ascii_of_N (n / 65536) :: ascii_of_N ((n / 256) mod 256)
      :: ascii_of_N (n mod 256) :: octets rest
  | [s1; s2; s3] =>
      let n := ((s1 * 64 + s2) * 64 + s3)%N in
      [ascii_of_N (n / 1024); ascii_of_N ((n / 4) mod 256)]
  | [s1; s2] =>
      let n := (s1 * 64 + s2)%N in
      [ascii_of_N (n / 16)]
  | _ => []
  end.

(** ASCII whitespace: tab, line feed, form feed, carriage return, space. *)
Definition isWhitespace (a : ascii) : bool :=
  let n := nat_of_ascii a in
  (Nat.eqb n 9 || Nat.eqb n 10 || Nat.eqb n 12 || Nat.eqb n 13 || Nat.eqb n 32)%bool.

(** Remove one or two ["="] from the end. *)
Definition stripPadding (l : list ascii) : list ascii :=
  match rev l with
  | a :: b :: front =>
      if Ascii.eqb a "=" then
        if Ascii.eqb b "=" then rev front else rev (b :: front)
      else l
  | [a] => if Ascii.eqb a "=" then [] else l
  | [] => l
  end.

Fixpoint allSextets (l : list ascii) : option (list N) :=
  match l with
  | [] => Some []
  | a :: rest =>
      match charSextet a, allSextets rest with
      | Some n, Some ns => Some (n :: ns)
      | _, _ => None
      end
  end.

(** Forgiving-base64 decode; [None] is failure. *)
Definition decode (data : string) : option Uint8Array :=
  let data := filter (λ a, isWhitespace a = false) (list_ascii_of_string data) in
  let data := if Nat.eqb (length data mod 4) 0 then stripPadding data else data in
  if Nat.eqb (length data mod 4) 1 then None
  else octets <$> allSextets data.

End Base64.

(** [window.btoa(data)]. *)
Definition btoa (data : string) : Outcome string :=
  match Latin1.codeUnits data with
  | Some bytes => Done (Base64.encode bytes)
  | None => Raised InvalidCharacterError
  end.

(** [window.atob(data)]. *)
Definition atob (data : string) : Outcome string :=
  match Base64.decode data with
  | Some bytes => Done (Latin1.binaryString bytes)
  | None => Raised InvalidCharacterError
  end.

(** ** URI components *)

Module URI.

Definition isAlnum (a : ascii) : bool :=
  let n := nat_of_ascii a in
  ((Nat.leb 48 n && Nat.leb n 57) || (Nat.leb 65 n && Nat.leb n 90)
   || (Nat.leb 97 n && Nat.leb n 122))%bool.

(** The characters [encodeURIComponent] leaves as they are. *)
Definition isUnreserved (a : ascii) : bool :=
  (isAlnum a
   || existsb (Ascii.eqb a) (list_ascii_of_string "-_.!~*'()"))%bool.

Definition hexDigit (n : N) : ascii :=
  nullish (String.get (N.to_nat n) "0123456789ABCDEF") "0"%char.

Definition hexValue (a : ascii) : option N :=
  let n := N_of_ascii a in
  if ((48 <=? n) && (n <=? 57))%N%bool then Some (n - 48)%N
  else if ((65 <=? n) && (n <=? 70))%N%bool then Some (n - 55)%N
  else if ((97 <=? n) && (n <=? 102))%N%bool then Some (n - 87)%N
  else None.

Definition escape (a : ascii) : list ascii :=
  let n := N_of_ascii a in
  ["%"%char; hexDigit (n / 16); hexDigit (n mod 16)].

(** [encodeURIComponent(s)]: every byte of the UTF-8 form that is not an
    unreserved character is written as a percent escape. *)
Definition encodeURIComponent (s : string) : string :=
  string_of_list_ascii
    (flat_map (λ a, if isUnreserved a then [a] else escape a)
       (list_ascii_of_string s)).

(** One step of the text: a character standing for itself, or the byte of
    a percent escape. *)
Inductive token : Set :=
| Lit (a : ascii)
| Esc (b : N).

(** A percent sign needs two hexadecimal digits after it. *)
Fixpoint tokens (l : list ascii) : option (list token) :=
  match l with
  | [] => Some []
  | a :: rest =>
      if Ascii.eqb a "%" then
        match rest with
        | h1 :: h2 :: rest' =>
            match hexValue h1, hexValue h2, tokens rest' with
            | Some x, Some y, Some ts => Some (Esc (x * 16 + y) :: ts)
            | _, _, _ => None
            end
        | _ => None
        end
      else cons (Lit a) <$> tokens rest
  end.

Definition between (lo hi n : N) : bool := ((lo <=? n) && (n <=? hi))%N%bool.

Definition continuation (n : N) : bool := between 128 191 n.

(** The escaped bytes above 127 must spell the UTF-8 form of a code
    point. *)
Fixpoint unescape (ts : list token) : option (list ascii) :=
  match ts with
  | [] => Some []
  | Lit a :: rest => cons a <$> unescape rest
  | Esc b :: rest =>
      if (b <? 128)%N then cons (ascii_of_N b) <$> unescape rest
      else if between 194 223 b then
        match rest with
        | Esc c :: rest' =>
            if continuation c
            then (λ l, ascii_of_N b :: ascii_of_N c :: l) <$> unescape rest'
            else None
        | _ => None
        end
      else if between 224 239 b then
        match rest with
        | Esc c :: Esc d :: rest' =>
            if ((if (b =? 224)%N then between 160 191 c
                 else if (b =? 237)%N then between 128 159 c
                 else continuation c)
                && continuation d)%bool
            then (λ l, ascii_of_N b :: ascii_of_N c :: ascii_of_N d :: l)
                   <$> unescape rest'
            else None
        | _ => None
        end
      else if between 240 244 b then
        match rest with
        | Esc c :: Esc d :: Esc e :: rest' =>
            if ((if (b =? 240)%N then between 144 191 c
                 else if (b =? 244)%N then between 128 143 c
                 else continuation c)
                && continuation d && continuation e)%bool
            then (λ l, ascii_of_N b :: ascii_of_N c :: ascii_of_N d
                       :: ascii_of_N e :: l) <$> unescape rest'
            else None
        | _ => None
        end
      else None
  end.

(** [decodeURIComponent(s)]. *)
Definition decodeURIComponent (s : string) : Outcome string :=
  match tokens (list_ascii_of_string s) ≫= unescape with
  | Some l => Done (string_of_list_ascii l)
  | None => Raised URIError
  end.

End URI.

Import URI.

(** The characters of the base64 alphabet: letters, digits, ["+"] and
    ["/"]. *)
Definition plain (a : ascii) : bool :=
  (isAlnum a || Ascii.eqb a "+" || Ascii.eqb a "/")%bool.

(** Letters, digits and the percent sign: text that passes through a URL
    unchanged. *)
Definition urlSafe (a : ascii) : bool := (isAlnum a || Ascii.eqb a "%")%bool.

(** ** The media helpers of [helpers.ts] *)

(** What reading a file gives: [FileReader] loads the bytes, or fails with
    an error that may carry a message.  Files are told apart by name. *)
Class Files := {
  readAsArrayBuffer : string → Uint8Array + option string;
}.

Section Media.
Context {F : Files}.

(** Every element of a [FileList] is a [File], so the [TypeError] for a
    value that is none is never raised. *)
Definition fileToArrayBuffer (file : string) : Result Uint8Array :=
  match readAsArrayBuffer file with
  | inl buffer => Ok buffer
  | inr message =>
      Throw (Error ("File reading error: " ++ Str.or_else message "Unknown error"))
  end.

Definition arrayBufferToBase64 (buffer : Uint8Array) : Outcome string :=
  let bytes := buffer in
  let len := length bytes in
  let binary :=
    fold_left
      (λ binary i,
         binary ++ Latin1.fromCharCode (nullish (bytes !! i) (ascii_of_N 0)))
      (seq 0 len) "" in
  btoa binary.

(** What a call leaves behind: the array it builds, and what it wrote with
    [console.error]. *)
Record Media := {
  arrayBuffers : list string;
  console : list (string * failure);
}.

(** [try { push(arrayBufferToBase64(await fileToArrayBuffer(file))) }
    catch (error) { console.error(label, error) }]. *)
Definition tryRead (label : string) (file : string) (m : Media) : Media :=
  match buffer ← settled (fileToArrayBuffer file); arrayBufferToBase64 buffer with
  | Done encoded =>
      {| arrayBuffers := arrayBuffers m ++ [encoded]; console := console m |}
  | Raised error =>
      {| arrayBuffers := arrayBuffers m; console := console m ++ [(label, error)] |}
  end.

Definition serializeMediaForWorker (formData : FormSchema) : Media :=
  match eventArtwork formData with
  | None => {| arrayBuffers := []; console := [] |}
  | Some eventArtwork =>
      let m := {| arrayBuffers := []; console := [] |} in
      let m :=
        match head eventArtwork with
        | Some file => tryRead "Error reading event artwork:" file m
        | None => m
        end in
      fold_left
        (λ m ticket,
           match artwork ticket ≫= head with
           | Some file => tryRead "Error reading ticket artwork:" file m
           | None => m
           end)
        (tickets formData) m
  end.

(** The files [serializeMediaForWorker] tries to read, in the order it
    reads them, each with the label it logs a failure under. *)
Definition mediaFiles (formData : FormSchema) : list (string * string) :=
  match eventArtwork formData with
  | None => []
  | Some eventArtwork =>
      (match head eventArtwork with
       | Some file => [("Error reading event artwork:", file)]
       | None => []
       end
       ++ omap (λ ticket,
                  file ← artwork ticket ≫= head;
                  Some ("Error reading ticket artwork:", file))
               (tickets formData))%list
  end.

(** The bytes of a file that can be read. *)
Definition loaded (entry : string * string) : option Uint8Array :=
  match readAsArrayBuffer entry.2 with
  | inl buffer => Some buffer
  | inr _ => None
  end.

(** What is logged for a file that cannot be read. *)
Definition logged (entry : string * string) : option (string * failure) :=
  match readAsArrayBuffer entry.2 with
  | inl _ => None
  | inr message =>
      Some (entry.1,
            Thrown (Error ("File reading error: "
                           ++ Str.or_else message "Unknown error")))
  end.

End Media.

(** ** Files to evaluate on

    A file that can be read holds the bytes of its name; two files cannot
    be read, one of them without a message. *)

Module Disk.

#[export] Instance files : Files := {|
  readAsArrayBuffer file :=
    if String.eqb file "broken.png" then inr None
    else if String.eqb file "locked.png" then inr (Some "Permission denied")
    else inl (list_ascii_of_string file);
|}.

Definition ticket (name : string) (artwork : option FileList)
    : TicketInfoFormMetadata :=
  {| name := name; denomination := "Near"; maxSupply := None;
     maxPurchases := None; priceNear := None; priceFiat := None;
     description := None; artwork := artwork; salesValidThrough := None;
     passValidThrough := None |}.

Definition form (eventArtwork : option FileList)
    (tickets : list TicketInfoFormMetadata) : FormSchema :=
  {| fs_name := "Launch"; stripeAccountId := None; acceptNearPayments := true;
     acceptStripePayments := false; fs_location := "Lisbon";
     fs_date := "2024-05-01"; tickets := tickets; checkoutType := near;
     fs_description := None; fs_startTime := None; fs_endTime := None;
     eventArtwork := eventArtwork |}.

End Disk.

(** ** [wallet.ts] *)

Record WalletTicket := {
  wt_artwork : option string;
  wt_description : option string;
  wt_extra : TicketMetadataExtra;
  wt_secretKey : string;
  wt_title : string;
}.

Record EventDataForWallet := {
  ed_event : FunderEventMetadata;
  ed_tickets : list WalletTicket;
}.

(** What [wallet.ts] takes from outside: a purchased ticket as
    [usePurchasedTickets] gives it (the hook is not among the sources), of
    which it reads five fields, and [JSON.stringify] and [JSON.parse] at
    the type [EventDataForWallet]. *)
Class Wallet := {
  PurchasedTicket : Type;
  artworkOfTicket : PurchasedTicket → option string;
  descriptionOfTicket : PurchasedTicket → option string;
  extraOfTicket : PurchasedTicket → TicketMetadataExtra;
  secretKeyOfTicket : PurchasedTicket → string;
  titleOfTicket : PurchasedTicket → string;
  JSON_stringify : EventDataForWallet → string;
  JSON_parse : string → Outcome EventDataForWallet;
}.

Section Wallet.
Context {W : Wallet}.

Record PurchasedTickets := {
  pt_event : FunderEventMetadata;
  pt_tickets : list PurchasedTicket;
}.

(** The object [stringifyEventDataForWallet] serialises. *)
Definition walletData (data : PurchasedTickets) : EventDataForWallet :=
  {| ed_event := pt_event data;
     ed_tickets :=
       map (λ ticket,
              {| wt_artwork := artworkOfTicket ticket;
                 wt_description := descriptionOfTicket ticket;
                 wt_extra := extraOfTicket ticket;
                 wt_secretKey := secretKeyOfTicket ticket;
                 wt_title := titleOfTicket ticket |})
           (pt_tickets data) |}.

Definition stringifyEventDataForWallet (data : option PurchasedTickets)
    : Outcome string :=
  match data with
  | None => Done ""
  | Some data =>
      let result := walletData data in
      encoded ← btoa (JSON_stringify result);
      Done (encodeURIComponent encoded)
  end.

Definition decodeEventDataForWallet (data : string) : Outcome EventDataForWallet :=
  decoded ← decodeURIComponent data;
  text ← atob decoded;
  JSON_parse text.

End Wallet.

(** ** Purchased tickets to evaluate on

    The serialiser of this instance writes the event name and the ticket
    titles; the parser accepts any text but the empty one. *)

Module Purchase.

#[export] Instance wallet : Wallet := {|
  PurchasedTicket := WalletTicket;
  artworkOfTicket := wt_artwork;
  descriptionOfTicket := wt_description;
  extraOfTicket := wt_extra;
  secretKeyOfTicket := wt_secretKey;
  titleOfTicket := wt_title;
  JSON_stringify data :=
    "{" ++ fem_name (ed_event data) ++ ":"
    ++ Sample.join (map wt_title (ed_tickets data)) ++ "}";
  JSON_parse text :=
    if String.eqb text "" then Raised SyntaxError
    else Done {| ed_event := Sample.event; ed_tickets := [] |};
|}.

Definition extra : TicketMetadataExtra :=
  {| tme_eventId := "ev1"; tme_dateCreated := "1700000000000";
     tme_limitPerUser := None; tme_priceNear := Some "1";
     tme_priceFiat := None; tme_maxSupply := None;
     tme_salesValidThrough := None; tme_passValidThrough := None |}.

Definition ticket (title : string) : WalletTicket :=
  {| wt_artwork := None; wt_description := None; wt_extra := extra;
     wt_secretKey := "ed25519:secret"; wt_title := title |}.

Definition purchased (titles : list string) : PurchasedTickets :=
  {| pt_event := Sample.event; pt_tickets := map ticket titles |}.

End Purchase.

(** ** What [createPayload] builds for one ticket *)

Section BuilderDetail.
Context {P : Platform}.

(** The drop configuration of a ticket: [created] is the clock reading
    taken for its metadata, [cid] what [shift] took from the array. *)
Definition dropConfigOf (eventId : string) (created : N) (cid : option string)
    (ticket : TicketInfoFormMetadata) : DropConfig :=
  {| nft_keys_config :=
       {| token_metadata :=
            {| tim_name := name ticket;
               tim_description := description ticket;
               tim_artwork := Some (Str.or_else cid "");
               tim_extra :=
                 Some (stringify_extra
                         {| tme_dateCreated := pretty created;
                            tme_priceNear := Some (nullish (priceNear ticket) "0");
                            tme_priceFiat := Some (nullish (priceFiat ticket) "0");
                            tme_salesValidThrough := salesValidThrough ticket;
                            tme_passValidThrough := passValidThrough ticket;
                            tme_maxSupply := maxSupply ticket;
                            tme_limitPerUser := maxPurchases ticket;
                            tme_eventId := eventId |}) |} |};
     add_key_allowlist := [KEYPOM_MARKETPLACE_CONTRACT];
     transfer_key_allowlist := [KEYPOM_MARKETPLACE_CONTRACT] |}.

(** The event metadata [createPayload] stores under the event identifier:
    the form's fields, the clock reading at the start, and the key material
    made from three successive random draws. *)
Definition eventMetadataOf (formData : FormSchema)
    (eventArtworkCid eventId masterKey : string) (w : World)
    : FunderEventMetadata :=
  let keyPair := generateKeyPair (draws w) in
  let saltBase64 := uint8ArrayToBase64 (getRandomValues (S (draws w)) 16) in
  let symmetricKey := deriveKeyFromPassword masterKey saltBase64 in
  let encrypted := encryptPrivateKey (S (S (draws w))) keyPair.2 symmetricKey in
  {| fem_nearCheckout := None;
     fem_name := fs_name formData;
     fem_dateCreated := pretty (clock w (reads w));
     fem_description := fs_description formData;
     fem_location := fs_location formData;
     fem_date :=
       {| startDate := Date_parse (fs_date formData);
          startTime := fs_startTime formData;
          endDate := Some (Date_parse (Str.or_else (fs_endTime formData) ""));
          endTime := fs_endTime formData |};
     fem_artwork := eventArtworkCid;
     fem_sellable := None;
     fem_id := eventId;
     pubKey := Some (exportPublicKeyToBase64 keyPair.1);
     encPrivKey := Some encrypted.1;
     iv := Some encrypted.2;
     salt := Some saltBase64 |}.

(** The asset data every drop gets. *)
Definition claimTwice : list AssetData :=
  [ {| uses := 2; assets := [None]; config := {| permissions := "claim" |} |} ].

(** The calls one iteration of the loop logs, latest first. *)
Definition ticketCalls : list Call := [CallShift; CallDateNow; CallDateNow].

End BuilderDetail.

(** A decimal digit. *)
Definition isDigit (a : ascii) : bool :=
  let n := nat_of_ascii a in (Nat.leb 48 n && Nat.leb n 57)%bool.

Fixpoint allDigits (s : string) : bool :=
  match s with
  | EmptyString => true
  | String a s' => (isDigit a && allDigits s')%bool
  end.

(** * Properties *)

(** ** Bigint arithmetic *)

Lemma toString_inj x y : toString x = toString y → x = y.
Proof. unfold toString. apply (inj pretty). Qed.


Lemma bigint_div_zero a : bigint_div a 0 = Throw RangeError.
Proof. reflexivity. Qed.

(** ** The free-key count *)

Lemma freeKeysCountable_Forall listings :
  freeKeysCountable listings = true
  ↔ Forall (λ listing, price listing = "0" → is_int (max_tickets listing) = true)
      listings.
Proof.
  unfold freeKeysCountable. induction listings as [|l ls IH]; simpl.
  - split; [by constructor | done].
  - rewrite andb_true_iff, IH, Forall_cons.
    destruct (String.eqb_spec (price l) "0") as [Hp|Hp]; intuition.
Qed.


Section EstimatorFacts.
Context {P : Platform}.

Lemma countStep_NaN listings : fold_left countStep listings NaN = NaN.
Proof.
  induction listings as [|l ls IH]; [done|].
  simpl. unfold countStep at 2. by destruct (String.eqb _ _).
Qed.

Lemma countStep_fold listings : ∀ acc,
  fold_left countStep listings (Int acc)
  = if freeKeysCountable listings
    then Int (acc + sumZ (map freeCount listings))
    else NaN.
Proof.
  induction listings as [|l ls IH]; intros acc; simpl.
  - f_equal. lia.
  - unfold countStep at 2, freeCount at 1.
    destruct (String.eqb (price l) "0").
    + destruct (max_tickets l) as [z|]; simpl.
      * rewrite IH. destruct (freeKeysCountable ls); [f_equal; lia | done].
      * apply countStep_NaN.
    + simpl. rewrite IH. destruct (freeKeysCountable ls); [f_equal; lia | done].
Qed.

Lemma countFreeKeys_spec listings :
  countFreeKeys listings
  = if freeKeysCountable listings then Int (sumZ (map freeCount listings)) else NaN.
Proof. apply (countStep_fold listings 0). Qed.

Lemma sum_freeAllowance listings :
  sumZ (map Formula.freeAllowance listings)
  = sumZ (map freeCount listings)
    * (BASE_MARKET_BYTES_PER_KEY + METADATA_MARKET_BYTES_PER_KEY)
    * YOCTO_PER_BYTE * 2.
Proof.
  induction listings as [|l ls IH]; simpl; [done|].
  rewrite IH. unfold Formula.freeAllowance, freeCount.
  destruct (String.eqb _ _); lia.
Qed.


(** The estimator, run: it raises exactly when the free-key total is not
    an integer or the ticket list is empty, and otherwise returns the four
    amounts of [Formula]. *)
Lemma calculateDepositCost_run eventMetadata tickets marketTicketInfo :
  calculateDepositCost eventMetadata tickets marketTicketInfo
  = if freeKeysCountable (JS.values marketTicketInfo)
    then
      if Z.eqb (Z.of_nat (length tickets)) 0 then Throw RangeError
      else
        Ok {| perDrop :=
                toString (Z.quot (Formula.dropDeposit tickets)
                            (Z.of_nat (length tickets)));
              perEvent := toString (Formula.funderMetaCost eventMetadata);
              marketListing := toString (Formula.marketDeposit marketTicketInfo);
              total :=
                toString (Formula.dropDeposit tickets
                          + Formula.funderMetaCost eventMetadata
                          + Formula.marketDeposit marketTicketInfo) |}
    else Throw RangeError.
Proof.
  unfold calculateDepositCost. rewrite countFreeKeys_spec.
  destruct (freeKeysCountable _); [|done].
  cbn [BigInt mbind result_bind]. unfold bigint_div.
  destruct (Z.eqb _ 0); [done|].
  cbn [mbind result_bind].
  unfold Formula.marketDeposit, Formula.dropDeposit, Formula.funderMetaCost.
  rewrite sum_freeAllowance. unfold JS.keys. rewrite length_map.
  reflexivity.
Qed.

End EstimatorFacts.

(** ** The estimator's contract *)

Section EstimatorContract.
Context {P : Platform}.










End EstimatorContract.

(** ** Objects as maps *)

Section ObjFacts.
Context {V : Type}.
Implicit Types (o : Obj V) (k : string) (v : V).

Lemma set_fresh k v o : k ∉ JS.keys o → JS.set k v o = (o ++ [(k, v)])%list.
Proof.
  induction o as [|[k' v'] o IH]; simpl; [done|].
  intros Hk. apply not_elem_of_cons in Hk as [Hne Hk].
  destruct (String.eqb_spec k' k) as [->|_]; [done|]. by rewrite IH.
Qed.

Lemma set_present k v o :
  k ∈ JS.keys o →
  length (JS.set k v o) = length o ∧ JS.keys (JS.set k v o) = JS.keys o.
Proof.
  induction o as [|[k' v'] o IH]; simpl.
  - by intros ?%elem_of_nil.
  - intros Hk. destruct (String.eqb_spec k' k) as [->|Hne]; [done|].
    apply elem_of_cons in Hk as [->|Hk]; [done|].
    destruct (IH Hk) as [Hl Hkeys]. simpl. by rewrite Hl, Hkeys.
Qed.

Lemma set_values (Q : V → Prop) k v o :
  Q v → Forall Q (JS.values o) → Forall Q (JS.values (JS.set k v o)).
Proof.
  intros Hv. induction o as [|[k' v'] o IH]; simpl.
  - by constructor.
  - intros [Hv' Ho]%Forall_cons. destruct (String.eqb k' k); simpl.
    + by constructor.
    + constructor; [done | by apply IH].
Qed.

Lemma assign_values (Q : V → Prop) (entries : list (string * V)) : ∀ o,
  Forall Q (JS.values o) → Forall Q (map snd entries) →
  Forall Q (JS.values (assign o entries)).
Proof.
  induction entries as [|[k v] entries IH]; intros o Ho He; simpl; [done|].
  apply Forall_cons in He as [Hv He]. apply IH; [|done].
  by apply set_values.
Qed.

Lemma assign_fresh (entries : list (string * V)) : ∀ o,
  NoDup (JS.keys o ++ map fst entries) → assign o entries = (o ++ entries)%list.
Proof.
  induction entries as [|[k v] entries IH]; intros o Hnd; simpl.
  - by rewrite app_nil_r.
  - simpl in Hnd. apply NoDup_app in Hnd as (Ho & Hdisj & Hrest).
    apply NoDup_cons in Hrest as [Hk Hrest].
    assert (k ∉ JS.keys o) as Hfresh.
    { intros Hin. apply (Hdisj k Hin). by left. }
    rewrite (set_fresh k v o Hfresh), IH.
    + by rewrite <- app_assoc.
    + unfold JS.keys. rewrite map_app. simpl. rewrite <- app_assoc. simpl.
      apply NoDup_app. split; [done|]. split.
      * intros x Hx [->|Hx']%elem_of_cons; [done|].
        apply (Hdisj x Hx). by right.
      * by apply NoDup_cons.
Qed.

Lemma assign_length_le (entries : list (string * V)) : ∀ o,
  (length (assign o entries) ≤ length o + length entries)%nat.
Proof.
  induction entries as [|[k v] entries IH]; intros o; simpl; [lia|].
  etrans; [apply IH|].
  destruct (decide (k ∈ JS.keys o)) as [Hin|Hout].
  - destruct (set_present k v o Hin) as [-> _]. lia.
  - rewrite (set_fresh k v o Hout), length_app. simpl. lia.
Qed.

Lemma assign_full (entries : list (string * V)) : ∀ o,
  NoDup (JS.keys o) →
  length (assign o entries) = (length o + length entries)%nat →
  NoDup (JS.keys o ++ map fst entries).
Proof.
  induction entries as [|[k v] entries IH]; intros o Ho Hlen; simpl in *.
  - by rewrite app_nil_r.
  - destruct (decide (k ∈ JS.keys o)) as [Hin|Hout].
    + pose proof (assign_length_le entries (JS.set k v o)) as Hle.
      destruct (set_present k v o Hin) as [Hl _]. lia.
    + rewrite (set_fresh k v o Hout) in Hlen.
      specialize (IH (o ++ [(k, v)])%list).
      unfold JS.keys in IH. rewrite map_app, length_app in IH. simpl in IH.
      rewrite <- app_assoc in IH. simpl in IH. apply IH; [|lia].
      apply NoDup_app. split; [done|]. split; [|apply NoDup_singleton].
      intros x Hx ->%list_elem_of_singleton. done.
Qed.





End ObjFacts.

(** ** The loop over the tickets *)

Section LoopFacts.
Context {P : Platform}.

Lemma listingPrice_error ticket e :
  listingPrice ticket = Throw e → e ≠ MISSING_MASTER_KEY.
Proof.
  unfold listingPrice, parseNearAmount, MISSING_MASTER_KEY.
  destruct (Str.falsy _); simpl.
  - intros [= <-]. discriminate.
  - destruct (_ || _)%bool; simpl; [|discriminate].
    intros [= <-]. discriminate.
Qed.

(** One iteration: two clock readings, one [shift], then the price. *)
Lemma ticketStep_run eventId st ticket w :
  match listingPrice ticket with
  | Throw e => ticketStep eventId st ticket w = (Throw e, afterTicket w)
  | Ok _ =>
      ∃ st',
        ticketStep eventId st ticket w = (Ok st', afterTicket w)
        ∧ d_drop_ids st'
          = (d_drop_ids st ++ [dropIdOf (clock w (reads w)) ticket])%list
        ∧ d_ticket_information st'
          = JS.set (dropIdOf (clock w (reads w)) ticket) (listingOf ticket)
              (d_ticket_information st)
        ∧ map artworkOf (d_drop_configs st')
          = (map artworkOf (d_drop_configs st)
             ++ [Some (Str.or_else (head (ticketArtworkCids w)) "")])%list
        ∧ length (d_asset_datas st') = S (length (d_asset_datas st))
  end.
Proof.
  unfold ticketStep, listingOf, afterTicket.
  destruct (listingPrice ticket) as [amount|e] eqn:Hprice;
    cbn [mbind M_bind Date_now shift lift mret M_ret
         clock reads localStorage draws ticketArtworkCids calls];
    [|reflexivity].
  eexists. split; [reflexivity|].
  cbn [d_drop_ids d_ticket_information d_drop_configs d_asset_datas].
  rewrite map_app, length_app. simpl. repeat split; try done; lia.
Qed.

(** The whole loop.  When every price parses it returns, having read the
    clock twice and shifted the array once per ticket; otherwise it raises
    what the price conversion raised. *)
Lemma forOf_ticketStep_run eventId ts : ∀ st w,
  ∃ w',
    clock w' = clock w ∧ localStorage w' = localStorage w
    ∧ draws w' = draws w
    ∧ if forallb priceParses ts
      then
        ∃ st',
          forOf (ticketStep eventId) ts st w = (Ok st', w')
          ∧ reads w' = (reads w + 2 * length ts)%nat
          ∧ ticketArtworkCids w' = drop (length ts) (ticketArtworkCids w)
          ∧ d_drop_ids st'
            = (d_drop_ids st ++ dropIdsFrom (clock w) (reads w) ts)%list
          ∧ d_ticket_information st'
            = assign (d_ticket_information st)
                (zip (dropIdsFrom (clock w) (reads w) ts) (map listingOf ts))
          ∧ map artworkOf (d_drop_configs st')
            = (map artworkOf (d_drop_configs st)
               ++ artworksFrom (ticketArtworkCids w) ts)%list
          ∧ length (d_asset_datas st')
            = (length (d_asset_datas st) + length ts)%nat
      else
        ∃ e,
          forOf (ticketStep eventId) ts st w = (Throw e, w')
          ∧ e ≠ MISSING_MASTER_KEY.
Proof.
  induction ts as [|t ts IH]; intros st w.
  - exists w. repeat split. exists st. simpl.
    rewrite !app_nil_r, drop_0. repeat split; lia.
  - pose proof (ticketStep_run eventId st t w) as Hstep.
    cbn [forallb forOf]. unfold priceParses at 1.
    destruct (listingPrice t) as [amount|e] eqn:Hprice.
    + destruct Hstep as (st1 & Hrun & Hids & Hinfo & Hart & Hassets).
      destruct (IH st1 (afterTicket w)) as (w' & Hclock & Hstore & Hdraws & Hrest).
      exists w'. repeat split; try done. cbn [andb].
      destruct (forallb priceParses ts).
      * destruct Hrest as (st' & Hloop & Hreads & Hcids & Hids' & Hinfo' & Hart' & Hassets').
        exists st'. unfold mbind, M_bind. rewrite Hrun.
        split; [exact Hloop|].
        rewrite Hreads, Hcids, Hids', Hinfo', Hart', Hassets'.
        rewrite Hids, Hinfo, Hart, Hassets. simpl.
        rewrite <- !app_assoc. simpl.
        repeat split; try done; try lia.
        destruct (ticketArtworkCids w); simpl; [by rewrite ?drop_nil | done].
      * destruct Hrest as (e & Hloop & He). exists e.
        unfold mbind, M_bind. by rewrite Hrun.
    + exists (afterTicket w). repeat split. cbn [andb]. exists e.
      unfold mbind, M_bind. rewrite Hstep.
      split; [done | by eapply listingPrice_error].
Qed.

End LoopFacts.

(** ** Drop identifiers *)

Lemma pretty_N_go_dashFree x : ∀ s,
  dashFree s = true → dashFree (pretty_N_go x s) = true.
Proof.
  induction (N.lt_wf_0 x) as [x _ IH]; intros s Hs.
  assert (x = 0 ∨ 0 < x)%N as [->|Hpos] by lia.
  - by rewrite pretty_N_go_0.
  - rewrite pretty_N_go_step by done. apply IH.
    + by apply N.div_lt.
    + simpl. rewrite Hs. unfold pretty_N_char. by repeat case_match.
Qed.

Lemma pretty_N_dashFree (n : N) : dashFree (pretty n) = true.
Proof.
  unfold pretty, pretty_N. case_decide; [done|].
  by apply pretty_N_go_dashFree.
Qed.

Lemma dash_split d1 : ∀ d2 s1 s2,
  dashFree d1 = true → dashFree d2 = true →
  d1 ++ "-" ++ s1 = d2 ++ "-" ++ s2 → d1 = d2 ∧ s1 = s2.
Proof.
  induction d1 as [|a d1 IH]; intros [|b d2] s1 s2 H1 H2 Heq; simpl in *.
  - by injection Heq.
  - injection Heq as <- _. by rewrite Ascii.eqb_refl in H2.
  - injection Heq as -> _. by rewrite Ascii.eqb_refl in H1.
  - injection Heq as -> Heq.
    apply andb_prop in H1 as [_ H1]. apply andb_prop in H2 as [_ H2].
    destruct (IH d2 s1 s2 H1 H2 Heq) as [-> ->]. done.
Qed.

Lemma map_fmap {A B} (f : A → B) (l : list A) : map f l = f <$> l.
Proof. induction l as [|a l IH]; simpl; [done | by f_equal]. Qed.

Section DropIdFacts.
Context {P : Platform}.

Lemma stampedSlug_inj a b : stampedSlug a = stampedSlug b → a = b.
Proof.
  destruct a as [n1 s1], b as [n2 s2]. unfold stampedSlug. simpl. intros Heq.
  apply dash_split in Heq as [Hn ->]; auto using pretty_N_dashFree.
  by apply (inj pretty) in Hn as ->.
Qed.

Lemma dropIds_stamped stamps tickets :
  zip_with dropIdOf stamps tickets
  = map stampedSlug (zip stamps (map slug tickets)).
Proof.
  revert tickets. induction stamps as [|n stamps IH]; intros [|t ts]; simpl;
    try done.
  by rewrite IH.
Qed.

Lemma dropIds_NoDup stamps tickets :
  NoDup (zip_with dropIdOf stamps tickets)
  ↔ NoDup (zip stamps (map slug tickets)).
Proof.
  rewrite dropIds_stamped.
  rewrite map_fmap. apply NoDup_fmap. intros a b. apply stampedSlug_inj.
Qed.

Lemma length_stampsFrom clock tickets : ∀ r,
  length (stampsFrom clock r tickets) = length tickets.
Proof. induction tickets as [|t ts IH]; intros r; simpl; [done | by rewrite IH]. Qed.

Lemma length_dropIdsFrom clock r tickets :
  length (dropIdsFrom clock r tickets) = length tickets.
Proof.
  unfold dropIdsFrom. rewrite length_zip_with, length_stampsFrom. lia.
Qed.

Lemma stampsFrom_lookup clock tickets : ∀ r i,
  (i < length tickets)%nat →
  stampsFrom clock r tickets !! i = Some (clock (r + 2 * i)%nat).
Proof.
  induction tickets as [|t ts IH]; intros r i Hi; simpl in *; [lia|].
  destruct i as [|i]; simpl.
  - do 2 f_equal. lia.
  - rewrite IH by lia. do 2 f_equal. lia.
Qed.

Lemma artworksFrom_nth tickets : ∀ cids,
  artworksFrom cids tickets
  = map (λ i, Some (nth i cids "")) (seq 0 (length tickets)).
Proof.
  induction tickets as [|t ts IH]; intros cids; simpl; [done|].
  rewrite IH, <- seq_shift, map_map. f_equal.
  - f_equal. destruct cids as [|c cids]; simpl; [done|].
    unfold Str.or_else, Str.falsy. simpl.
    by destruct (String.eqb_spec c "") as [->|_].
  - apply map_ext. intros i. f_equal.
    destruct cids; simpl; [by destruct i | done].
Qed.

End DropIdFacts.

(** ** The payload builder, run *)

Section BuilderFacts.
Context {P : Platform}.

(** With a master key, [createPayload] makes the event metadata and its
    keys, runs the loop, estimates the deposit and assembles the action. *)
Lemma createPayload_run accountId formData eventArtworkCid eventId w key :
  lookup_key "MASTER_KEY" (localStorage w) = Some key →
  Str.falsy (Some key) = false →
  ∃ eventMetadata,
    fem_id eventMetadata = eventId
    ∧ createPayload accountId formData eventArtworkCid eventId w
      = match forOf (ticketStep eventId) (tickets formData) noDrops (afterKeys w) with
        | (Ok st, w') =>
            match calculateDepositCost eventMetadata (tickets formData)
                    (d_ticket_information st) with
            | Ok costBreakdown =>
                (Ok (actionsOf accountId formData eventId eventMetadata st
                       costBreakdown,
                     d_drop_ids st), w')
            | Throw e => (Throw e, w')
            end
        | (Throw e, w') => (Throw e, w')
        end.
Proof.
  intros Hkey Hfalsy.
  unfold createPayload, localStorageGet, mbind, M_bind.
  rewrite Hkey, Hfalsy.
  cbn [Date_now draw logCall clock reads localStorage draws ticketArtworkCids calls].
  destruct (generateKeyPair (draws w)) as [publicKey privateKey].
  destruct (encryptPrivateKey _ _ _) as [encrypted ivBase64].
  eexists. split; [|reflexivity]. reflexivity.
Qed.

Lemma createPayload_no_key accountId formData eventArtworkCid eventId w :
  Str.falsy (lookup_key "MASTER_KEY" (localStorage w)) = true →
  createPayload accountId formData eventArtworkCid eventId w
  = (Throw MISSING_MASTER_KEY, w).
Proof.
  intros Hfalsy. unfold createPayload, localStorageGet, mbind, M_bind.
  by rewrite Hfalsy.
Qed.

Lemma falsy_false key : Str.falsy key = false → ∃ k, key = Some k.
Proof. destruct key; [eauto | done]. Qed.

(** The loop, when it returns. *)
Lemma forOf_ticketStep_ok eventId ts st w st' w' :
  forOf (ticketStep eventId) ts st w = (Ok st', w') →
  forallb priceParses ts = true
  ∧ clock w' = clock w
  ∧ reads w' = (reads w + 2 * length ts)%nat
  ∧ ticketArtworkCids w' = drop (length ts) (ticketArtworkCids w)
  ∧ d_drop_ids st' = (d_drop_ids st ++ dropIdsFrom (clock w) (reads w) ts)%list
  ∧ d_ticket_information st'
    = assign (d_ticket_information st)
        (zip (dropIdsFrom (clock w) (reads w) ts) (map listingOf ts))
  ∧ map artworkOf (d_drop_configs st')
    = (map artworkOf (d_drop_configs st)
       ++ artworksFrom (ticketArtworkCids w) ts)%list.
Proof.
  intros Hrun.
  destruct (forOf_ticketStep_run eventId ts st w) as (w2 & Hclock & _ & _ & H).
  destruct (forallb priceParses ts).
  - destruct H as (st2 & Hrun2 & Hreads & Hcids & Hids & Hinfo & Hart & _).
    rewrite Hrun in Hrun2. injection Hrun2 as -> ->. done.
  - destruct H as (e & Hrun2 & _). rewrite Hrun in Hrun2. discriminate.
Qed.

(** [createPayload], when it returns. *)
Lemma createPayload_ok accountId formData eventArtworkCid eventId w actions dropIds w' :
  createPayload accountId formData eventArtworkCid eventId w
  = (Ok (actions, dropIds), w') →
  ∃ eventMetadata st costBreakdown,
    fem_id eventMetadata = eventId
    ∧ forOf (ticketStep eventId) (tickets formData) noDrops (afterKeys w)
      = (Ok st, w')
    ∧ calculateDepositCost eventMetadata (tickets formData)
        (d_ticket_information st) = Ok costBreakdown
    ∧ actions
      = actionsOf accountId formData eventId eventMetadata st costBreakdown
    ∧ dropIds = d_drop_ids st.
Proof.
  intros Hrun.
  destruct (Str.falsy (lookup_key "MASTER_KEY" (localStorage w))) eqn:Hfalsy.
  { rewrite createPayload_no_key in Hrun by done. discriminate. }
  destruct (falsy_false _ Hfalsy) as [key Hkey]. rewrite Hkey in Hfalsy.
  destruct (createPayload_run accountId formData eventArtworkCid eventId w key
              Hkey Hfalsy) as (eventMetadata & Hid & Heq).
  rewrite Heq in Hrun. clear Heq.
  destruct (forOf _ _ _ _) as [[st|e] w2]; [|discriminate].
  destruct (calculateDepositCost _ _ _) as [costBreakdown|e] eqn:Hcost;
    [|discriminate].
  injection Hrun as <- <- <-. by exists eventMetadata, st, costBreakdown.
Qed.

Lemma zip_snd_Forall {A B} (Q : B → Prop) (ks : list A) : ∀ vs,
  Forall Q vs → Forall Q (map snd (zip ks vs)).
Proof.
  induction ks as [|k ks IH]; intros [|v vs] Hvs; simpl; try done.
  apply Forall_cons in Hvs as [Hv Hvs]. constructor; [done | by apply IH].
Qed.

(** [createPayload] returns whenever [payloadReady] holds. *)
Lemma createPayload_ready accountId formData eventArtworkCid eventId w :
  payloadReady w formData = true →
  ∃ actions dropIds w',
    createPayload accountId formData eventArtworkCid eventId w
    = (Ok (actions, dropIds), w').
Proof.
  unfold payloadReady. rewrite !andb_true_iff, !negb_true_iff.
  intros [[[Hfalsy Hne] Hparse] Hcount].
  destruct (falsy_false _ Hfalsy) as [key Hkey]. rewrite Hkey in Hfalsy.
  destruct (createPayload_run accountId formData eventArtworkCid eventId w key
              Hkey Hfalsy) as (eventMetadata & Hid & ->).
  destruct (forOf_ticketStep_run eventId (tickets formData) noDrops (afterKeys w))
    as (w2 & _ & _ & _ & H).
  rewrite Hparse in H.
  destruct H as (st & -> & _ & _ & _ & Hinfo & _).
  rewrite calculateDepositCost_run.
  assert (freeKeysCountable (JS.values (d_ticket_information st)) = true) as ->.
  { rewrite Hinfo. apply freeKeysCountable_Forall, assign_values; [constructor|].
    by apply zip_snd_Forall, freeKeysCountable_Forall. }
  destruct (Z.eqb_spec (Z.of_nat (length (tickets formData))) 0) as [Hz|_].
  { apply Nat.eqb_neq in Hne. lia. }
  eauto.
Qed.

End BuilderFacts.

(** ** The payload builder's contract *)

Section BuilderContract.
Context {P : Platform}.


(** C4: without a master key in local storage (the value is missing, or
    empty, which [!masterKey] treats alike) [createPayload] throws the
    missing-master-key error and leaves the world as it found it: no clock
    reading, no key generation or random draw, no [shift] of the artwork
    array, hence no drop, estimate or action; with a master key it never
    throws that error. *)
Theorem createPayload_master_key accountId formData eventArtworkCid eventId w :
  (Str.falsy (lookup_key "MASTER_KEY" (localStorage w)) = true →
   createPayload accountId formData eventArtworkCid eventId w
   = (Throw MISSING_MASTER_KEY, w))
  ∧ (Str.falsy (lookup_key "MASTER_KEY" (localStorage w)) = false →
     (createPayload accountId formData eventArtworkCid eventId w).1
     ≠ Throw MISSING_MASTER_KEY).
Proof.
  split; [apply createPayload_no_key|].
  intros Hfalsy.
  destruct (falsy_false _ Hfalsy) as [key Hkey]. rewrite Hkey in Hfalsy.
  destruct (createPayload_run accountId formData eventArtworkCid eventId w key
              Hkey Hfalsy) as (eventMetadata & _ & ->).
  destruct (forOf_ticketStep_run eventId (tickets formData) noDrops (afterKeys w))
    as (w2 & _ & _ & _ & H).
  destruct (forallb priceParses (tickets formData)).
  - destruct H as (st & -> & _). rewrite calculateDepositCost_run.
    destruct (freeKeysCountable _); [|done].
    by destruct (Z.eqb _ _).
  - destruct H as (e & -> & He). simpl. congruence.
Qed.

(** C5, as the code has it: the drop identifiers of one call are the
    clock readings taken for the tickets (every second reading, starting
    with the one after the event's), each followed by ["-"] and the ticket's
    slug; they are pairwise distinct exactly when no two tickets have both
    the same reading and the same slug.  Names that differ only by spaces
    have the same slug, so within one millisecond their identifiers
    coincide. *)
Theorem dropIds_unique_iff accountId formData eventArtworkCid eventId w
    actions dropIds w' :
  createPayload accountId formData eventArtworkCid eventId w
  = (Ok (actions, dropIds), w') →
  let stamps := stampsFrom (clock w) (S (reads w)) (tickets formData) in
  (∀ i, (i < length (tickets formData))%nat →
        stamps !! i = Some (clock w (S (reads w) + 2 * i)%nat))
  ∧ dropIds = zip_with dropIdOf stamps (tickets formData)
  ∧ (NoDup dropIds ↔ NoDup (zip stamps (map slug (tickets formData)))).
Proof.
  intros Hrun stamps.
  destruct (createPayload_ok _ _ _ _ _ _ _ _ Hrun)
    as (eventMetadata & st & costBreakdown & _ & Hloop & _ & _ & ->).
  apply forOf_ticketStep_ok in Hloop as (_ & _ & _ & _ & Hids & _).
  rewrite Hids. simpl. split; [|split; [done|]].
  - intros i Hi. by apply stampsFrom_lookup.
  - apply dropIds_NoDup.
Qed.

Lemma keys_zip {V} (ids : list string) : ∀ vs : list V,
  length ids = length vs → JS.keys (zip ids vs) = ids.
Proof.
  induction ids as [|k ids IH]; intros [|v vs] Hlen; simpl in *; try done.
  rewrite (IH vs); [done | lia].
Qed.

Lemma values_zip {V} (ids : list string) : ∀ vs : list V,
  length ids = length vs → JS.values (zip ids vs) = vs.
Proof.
  induction ids as [|k ids IH]; intros [|v vs] Hlen; simpl in *; try done.
  rewrite (IH vs); [done | lia].
Qed.

(** The listing map the loop builds, from an empty one. *)
Lemma listings_built eventId ts w st w' :
  forOf (ticketStep eventId) ts noDrops w = (Ok st, w') →
  let ids := dropIdsFrom (clock w) (reads w) ts in
  d_drop_ids st = ids
  ∧ length ids = length ts
  ∧ d_ticket_information st = assign [] (zip ids (map listingOf ts))
  ∧ (length (d_ticket_information st) ≤ length ts)%nat
  ∧ (length (d_ticket_information st) = length ts ↔ NoDup ids)
  ∧ (NoDup ids → d_ticket_information st = zip ids (map listingOf ts)).
Proof.
  intros Hloop ids.
  apply forOf_ticketStep_ok in Hloop as (_ & _ & _ & _ & Hids & Hinfo & _).
  simpl in Hids, Hinfo. fold ids in Hids, Hinfo.
  assert (length ids = length ts) as Hlen by apply length_dropIdsFrom.
  assert (length ids = length (map listingOf ts)) as Hlen'
    by by rewrite length_map.
  assert (length (zip ids (map listingOf ts)) = length ts) as Hzip
    by (rewrite length_zip, length_map; lia).
  pose proof (assign_length_le (zip ids (map listingOf ts)) []) as Hle.
  rewrite Hzip in Hle. simpl in Hle.
  pose proof (keys_zip ids _ Hlen') as Hkeys. unfold JS.keys in Hkeys.
  assert (NoDup ids → assign [] (zip ids (map listingOf ts))
                      = zip ids (map listingOf ts)) as Hfresh.
  { intros Hnd. rewrite assign_fresh; [done|]. simpl. by rewrite Hkeys. }
  rewrite Hids, Hinfo. repeat split; try done.
  - intros Hfull.
    pose proof (assign_full (zip ids (map listingOf ts)) [] NoDup_nil_2)
      as Hnd.
    simpl in Hnd. rewrite Hzip in Hnd.
    specialize (Hnd Hfull). by rewrite Hkeys in Hnd.
  - intros Hnd. by rewrite (Hfresh Hnd).
Qed.

(** C6, as the code has it: a call that returns has generated one drop
    identifier per ticket type; the listing map, being keyed by the drop
    identifiers, has at most that many records, and exactly that many if
    and only if the identifiers are pairwise distinct. *)
Theorem listing_and_dropId_counts accountId formData eventArtworkCid eventId w
    actions dropIds w' :
  createPayload accountId formData eventArtworkCid eventId w
  = (Ok (actions, dropIds), w') →
  ∃ eventMetadata st costBreakdown,
    actions = actionsOf accountId formData eventId eventMetadata st costBreakdown
    ∧ forOf (ticketStep eventId) (tickets formData) noDrops (afterKeys w)
      = (Ok st, w')
    ∧ length dropIds = length (tickets formData)
    ∧ length (d_drop_configs st) = length (tickets formData)
    ∧ (length (d_ticket_information st) ≤ length (tickets formData))%nat
    ∧ (length (d_ticket_information st) = length (tickets formData)
       ↔ NoDup dropIds).
Proof.
  intros Hrun.
  destruct (createPayload_ok _ _ _ _ _ _ _ _ Hrun)
    as (eventMetadata & st & costBreakdown & _ & Hloop & _ & -> & ->).
  exists eventMetadata, st, costBreakdown.
  destruct (listings_built _ _ _ _ _ Hloop) as (Hids & Hlen & _ & Hle & Hiff & _).
  pose proof (forOf_ticketStep_ok _ _ _ _ _ _ Hloop)
    as (_ & _ & _ & _ & _ & _ & Hart).
  apply (f_equal length) in Hart. simpl in Hart.
  rewrite length_map, artworksFrom_nth, length_map, length_seq in Hart.
  rewrite Hids. repeat split; try done; apply Hiff.
Qed.







End BuilderContract.

(** ** The contract on concrete inputs *)

Section OnTheSamplePlatform.
#[local] Existing Instance Sample.platform.

Example parseNearAmount_zero : parseNearAmount "0" = Ok (Some "0").
Proof. reflexivity. Qed.

Example parseNearAmount_decimal :
  parseNearAmount "2.5" = Ok (Some "2500000000000000000000000").
Proof. reflexivity. Qed.

Example parseNearAmount_grouped :
  parseNearAmount " 1,000.25 " = Ok (Some "1000250000000000000000000000").
Proof. reflexivity. Qed.

Example parseNearAmount_empty : parseNearAmount "" = Ok None.
Proof. reflexivity. Qed.

Example parseNearAmount_two_points :
  parseNearAmount "1.2.3" = Throw (Error "Cannot parse '1.2.3' as NEAR amount").
Proof. reflexivity. Qed.

Example toString_negative : toString (-39210000000000000000000) = "-39210000000000000000000".
Proof. vm_compute. reflexivity. Qed.

(** Seven tickets: the drop deposit is not a multiple of seven, and the
    remainder is dropped from [perDrop]. *)
Example perDrop_drops_remainder :
  let tickets := replicate 7 Sample.general in
  Z.rem (Formula.dropDeposit tickets) 7 = 1
  ∧ ∃ costBreakdown,
      calculateDepositCost Sample.event tickets
        [("1700000000000-generaladmission", Sample.listing (Int 50) "1")]
      = Ok costBreakdown
      ∧ perDrop costBreakdown
        = toString ((Formula.dropDeposit tickets - 1) / 7).
Proof. split; [by vm_compute|]. eexists. split; by vm_compute. Qed.








Lemma createPayload_master_key_witness :
  createPayload "alice.testnet"
    (Sample.form [Sample.earlyFree; Sample.general]) "bafyevent" "ev1"
    (Sample.world [] ["cid1"])
  = (Throw MISSING_MASTER_KEY, Sample.world [] ["cid1"])
  ∧ (createPayload "alice.testnet"
       (Sample.form [Sample.earlyFree; Sample.general]) "bafyevent" "ev1"
       (Sample.world Sample.withKey ["cid1"])).1
    ≠ Throw MISSING_MASTER_KEY.
Proof.
  split.
  - exact (proj1
             (createPayload_master_key "alice.testnet"
                (Sample.form [Sample.earlyFree; Sample.general]) "bafyevent"
                "ev1" (Sample.world [] ["cid1"]))
             eq_refl).
  - exact (proj2
             (createPayload_master_key "alice.testnet"
                (Sample.form [Sample.earlyFree; Sample.general]) "bafyevent"
                "ev1" (Sample.world Sample.withKey ["cid1"]))
             eq_refl).
Defined.

(** Two ticket types named "early bird" and "earlybird", created within
    one millisecond: both get the drop identifier
    "1700000000000-earlybird". *)
Lemma dropIds_collide :
  ∃ actions w',
    createPayload "alice.testnet"
      (Sample.form [Sample.earlyFree; Sample.earlyPaid]) "bafyevent" "ev1"
      (Sample.world Sample.withKey ["cid1"])
    = (Ok (actions, ["1700000000000-earlybird"; "1700000000000-earlybird"]), w')
    ∧ name Sample.earlyFree = "early bird"
    ∧ name Sample.earlyPaid = "earlybird".
Proof. eexists _, _. repeat split. by vm_compute. Qed.

Lemma dropIds_unique_iff_witness :
  ∃ actions w',
    createPayload "alice.testnet"
      (Sample.form [Sample.earlyFree; Sample.general]) "bafyevent" "ev1"
      (Sample.world Sample.withKey ["cid1"])
    = (Ok (actions,
           ["1700000000000-earlybird"; "1700000000000-generaladmission"]), w')
    ∧ NoDup ["1700000000000-earlybird"; "1700000000000-generaladmission"].
Proof.
  assert (∃ actions w',
            createPayload "alice.testnet"
              (Sample.form [Sample.earlyFree; Sample.general]) "bafyevent" "ev1"
              (Sample.world Sample.withKey ["cid1"])
            = (Ok (actions,
                   ["1700000000000-earlybird"; "1700000000000-generaladmission"]),
               w')) as (actions & w' & Hrun)
    by (eexists _, _; by vm_compute).
  exists actions, w'. split; [exact Hrun|].
  apply (dropIds_unique_iff _ _ _ _ _ _ _ _ Hrun).
  apply NoDup_cons. split; [|apply NoDup_singleton].
  intros [=]%list_elem_of_singleton.
Defined.

(** The same two ticket types: the loop writes both listing records under
    the one identifier, and the map that goes to the estimator and into the
    callback holds a single record for two ticket types. *)
Lemma listings_fewer_than_tickets :
  ∃ actions st w',
    createPayload "alice.testnet"
      (Sample.form [Sample.earlyFree; Sample.earlyPaid]) "bafyevent" "ev1"
      (Sample.world Sample.withKey ["cid1"])
    = (Ok (actions, d_drop_ids st), w')
    ∧ forOf (ticketStep "ev1") [Sample.earlyFree; Sample.earlyPaid] noDrops
        (afterKeys (Sample.world Sample.withKey ["cid1"]))
      = (Ok st, w')
    ∧ d_ticket_information st
      = [("1700000000000-earlybird",
          Sample.listing (Int 5) "1000000000000000000000000")]
    ∧ length (tickets (Sample.form [Sample.earlyFree; Sample.earlyPaid])) = 2%nat.
Proof. eexists _, _, _. split; [|split; [by vm_compute|]]; by vm_compute. Qed.

Lemma listing_and_dropId_counts_witness :
  ∃ actions dropIds w' st,
    createPayload "alice.testnet"
      (Sample.form [Sample.earlyFree; Sample.general]) "bafyevent" "ev1"
      (Sample.world Sample.withKey ["cid1"])
    = (Ok (actions, dropIds), w')
    ∧ forOf (ticketStep "ev1") [Sample.earlyFree; Sample.general] noDrops
        (afterKeys (Sample.world Sample.withKey ["cid1"]))
      = (Ok st, w')
    ∧ length dropIds = 2%nat
    ∧ (length (d_ticket_information st) ≤ 2)%nat.
Proof.
  destruct
    (createPayload_ready "alice.testnet"
       (Sample.form [Sample.earlyFree; Sample.general]) "bafyevent" "ev1"
       (Sample.world Sample.withKey ["cid1"]) eq_refl)
    as (actions & dropIds & w' & Hrun).
  destruct (listing_and_dropId_counts _ _ _ _ _ _ _ _ Hrun)
    as (_ & st & _ & _ & Hloop & Hlen & _ & Hle & _).
  exists actions, dropIds, w', st.
  split; [exact Hrun|]. split; [exact Hloop|]. split; [exact Hlen | exact Hle].
Defined.




End OnTheSamplePlatform.

(** ** Base64 *)

Ltac div_lia := zify; Z.to_euclidean_division_equations; lia.

Lemma list_ind3 {A} (Q : list A → Prop) :
  Q [] → (∀ a, Q [a]) → (∀ a b, Q [a; b]) →
  (∀ a b c rest, Q rest → Q (a :: b :: c :: rest)) →
  ∀ l, Q l.
Proof.
  intros H0 H1 H2 H3 l.
  enough (Q l ∧ (∀ a, Q (a :: l)) ∧ ∀ a b, Q (a :: b :: l)) as [H _] by exact H.
  induction l as [|x l (IH0 & IH1 & IH2)]; [by auto|].
  split; [apply IH1|]. split; [intros a; apply IH2|].
  intros a b. by apply H3.
Qed.

Lemma list_of_append s1 s2 :
  list_ascii_of_string (s1 ++ s2)
  = (list_ascii_of_string s1 ++ list_ascii_of_string s2)%list.
Proof. induction s1 as [|a s1 IH]; simpl; [done | by rewrite IH]. Qed.

Lemma length_list_of s : length (list_ascii_of_string s) = String.length s.
Proof. induction s as [|a s IH]; simpl; [done | by rewrite IH]. Qed.

Lemma below (k : nat) (Q : N → bool) :
  forallb Q (map N.of_nat (seq 0 k)) = true →
  ∀ n, (n < N.of_nat k)%N → Q n = true.
Proof.
  intros Hall n Hn. rewrite forallb_forall in Hall. apply Hall.
  rewrite <- (N2Nat.id n). apply in_map, in_seq. lia.
Qed.

Lemma charSextet_sextetChar n :
  (n < 64)%N → Base64.charSextet (Base64.sextetChar n) = Some n.
Proof.
  intros Hn.
  pose proof (below 64
    (λ n, match Base64.charSextet (Base64.sextetChar n) with
          | Some m => N.eqb m n
          | None => false
          end) eq_refl n Hn) as H.
  simpl in H. destruct (Base64.charSextet _) as [m|]; [|done].
  by apply N.eqb_eq in H as ->.
Qed.

Lemma plain_facts a :
  plain a = true →
  Base64.isWhitespace a = false ∧ Ascii.eqb a "=" = false
  ∧ Ascii.eqb a "%" = false ∧ (N_of_ascii a < 128)%N.
Proof.
  destruct a as [[] [] [] [] [] [] [] []]; vm_compute; intros H;
    try discriminate H; repeat split; done.
Qed.

Lemma sextetChar_plain n : (n < 64)%N → plain (Base64.sextetChar n) = true.
Proof. apply (below 64 (λ n, plain (Base64.sextetChar n))). reflexivity. Qed.

Lemma sextets_bounded bytes : Forall (λ n, (n < 64)%N) (Base64.sextets bytes).
Proof.
  induction bytes as [|a|a b|a b c rest IH] using list_ind3;
    cbn [Base64.sextets]; repeat constructor; try done;
    pose proof (N_ascii_bounded a); try pose proof (N_ascii_bounded b);
    try pose proof (N_ascii_bounded c); div_lia.
Qed.

Lemma allSextets_chars groups :
  Forall (λ n, (n < 64)%N) groups →
  Base64.allSextets (map Base64.sextetChar groups) = Some groups.
Proof.
  induction 1 as [|n groups Hn _ IH]; simpl; [done|].
  by rewrite charSextet_sextetChar, IH.
Qed.

(** Grouping the bits by six and back by eight gives the bytes again. *)
Lemma octets_sextets bytes : Base64.octets (Base64.sextets bytes) = bytes.
Proof.
  induction bytes as [|a|a b|a b c rest IH] using list_ind3;
    cbn [Base64.sextets Base64.octets]; [done|..].
  - pose proof (N_ascii_bounded a). f_equal.
    rewrite <- (ascii_N_embedding a) at 3. f_equal. div_lia.
  - pose proof (N_ascii_bounded a). pose proof (N_ascii_bounded b).
    f_equal; [|f_equal].
    + rewrite <- (ascii_N_embedding a) at 4. f_equal. div_lia.
    + rewrite <- (ascii_N_embedding b) at 4. f_equal. div_lia.
  - pose proof (N_ascii_bounded a). pose proof (N_ascii_bounded b).
    pose proof (N_ascii_bounded c). rewrite IH.
    f_equal; [|f_equal; [|f_equal]].
    + rewrite <- (ascii_N_embedding a) at 5. f_equal. div_lia.
    + rewrite <- (ascii_N_embedding b) at 5. f_equal. div_lia.
    + rewrite <- (ascii_N_embedding c) at 5. f_equal. div_lia.
Qed.

Lemma padding_cons3 (a b c : ascii) rest :
  Base64.padding (a :: b :: c :: rest) = Base64.padding rest.
Proof.
  unfold Base64.padding. cbn [length].
  replace (S (S (S (length rest))) mod 3)%nat with (length rest mod 3)%nat; [done|].
  change (S (S (S (length rest)))) with (3 + length rest)%nat.
  by rewrite <- Nat.Div0.add_mod_idemp_l, Nat.Div0.mod_same.
Qed.

(** The text of an encoding: four characters for three bytes, and a last
    group of four made of two or three characters and the padding. *)
Lemma encode_shape bytes :
  let body := map Base64.sextetChar (Base64.sextets bytes) in
  let pad := list_ascii_of_string (Base64.padding bytes) in
  list_ascii_of_string (Base64.encode bytes) = (body ++ pad)%list
  ∧ Forall (λ a, plain a = true) body
  ∧ (length body + length pad = 4 * ((length bytes + 2) / 3))%nat
  ∧ (pad = [] ∨ pad = ["="%char] ∨ pad = ["="%char; "="%char])
  ∧ (length body mod 4 ≠ 1)%nat.
Proof.
  intros body pad. split; [|split].
  - unfold Base64.encode, Base64.chars.
    by rewrite list_of_append, list_ascii_of_string_of_list_ascii.
  - subst body. pose proof (sextets_bounded bytes) as Hb.
    induction Hb as [|n groups Hn _ IH]; simpl; constructor; [|done].
    by apply sextetChar_plain.
  - subst body pad. rewrite length_map.
    induction bytes as [|a|a b|a b c rest (IH1 & IH2 & IH3)] using list_ind3.
    + repeat split; [by left | done].
    + repeat split; [by right; right | done].
    + repeat split; [by right; left | done].
    + rewrite padding_cons3. cbn [Base64.sextets length].
      split; [|split; [done|]].
      * replace (S (S (S (length rest))) + 2)%nat
          with (1 * 3 + (length rest + 2))%nat by lia.
        rewrite Nat.div_add_l by done. lia.
      * replace (S (S (S (S (length (Base64.sextets rest))))))
          with (length (Base64.sextets rest) + 1 * 4)%nat by lia.
        by rewrite Nat.Div0.mod_add.
Qed.

Lemma stripPadding_body body :
  Forall (λ a, plain a = true) body →
  Base64.stripPadding body = body
  ∧ Base64.stripPadding (body ++ ["="%char]) = body
  ∧ Base64.stripPadding (body ++ ["="%char; "="%char]) = body.
Proof.
  intros Hbody. unfold Base64.stripPadding.
  rewrite !rev_app_distr. simpl.
  assert (∀ a, a ∈ rev body → Ascii.eqb a "=" = false) as Hrev.
  { intros a Hin. rewrite Forall_forall in Hbody.
    apply plain_facts, Hbody, list_elem_of_In, in_rev, list_elem_of_In, Hin. }
  destruct (rev body) as [|a [|b front]] eqn:Hr.
  - apply (f_equal (@rev ascii)) in Hr. rewrite rev_involutive in Hr.
    by subst body.
  - rewrite (Hrev a) by by left.
    apply (f_equal (@rev ascii)) in Hr. rewrite rev_involutive in Hr.
    by subst body.
  - rewrite (Hrev a) by by left.
    apply (f_equal (@rev ascii)) in Hr. rewrite rev_involutive in Hr.
    by subst body.
Qed.

Lemma filter_plain body pad :
  Forall (λ a, plain a = true) body →
  pad = [] ∨ pad = ["="%char] ∨ pad = ["="%char; "="%char] →
  filter (λ a, Base64.isWhitespace a = false) (body ++ pad)%list
  = (body ++ pad)%list.
Proof.
  intros Hbody Hpad.
  assert (Forall (λ a, Base64.isWhitespace a = false) (body ++ pad)) as Hall.
  { apply Forall_app. split.
    - eapply Forall_impl; [exact Hbody|]. intros a Ha. by apply plain_facts.
    - by destruct Hpad as [->|[->| ->]]; repeat constructor. }
  induction Hall as [|a l Ha _ IH]; [done|].
  by rewrite filter_cons_True, IH.
Qed.

(** Decoding an encoding gives the bytes again. *)
Lemma decode_encode bytes : Base64.decode (Base64.encode bytes) = Some bytes.
Proof.
  destruct (encode_shape bytes) as (Hlist & Hbody & Hlen & Hpad & Hmod).
  unfold Base64.decode. rewrite Hlist, filter_plain by done.
  rewrite length_app, Hlen.
  replace (4 * ((length bytes + 2) / 3) mod 4)%nat with 0%nat
    by (rewrite Nat.mul_comm; by rewrite Nat.Div0.mod_mul).
  cbn [Nat.eqb].
  destruct (stripPadding_body _ Hbody) as (H0 & H1 & H2).
  assert (Base64.stripPadding
            (map Base64.sextetChar (Base64.sextets bytes)
             ++ list_ascii_of_string (Base64.padding bytes))%list
          = map Base64.sextetChar (Base64.sextets bytes)) as ->.
  { destruct Hpad as [->|[->| ->]]; [by rewrite app_nil_r | done | done]. }
  destruct (Nat.eqb_spec (length (map Base64.sextetChar (Base64.sextets bytes)) mod 4) 1)
    as [Heq|_]; [done|].
  rewrite allSextets_chars by apply sextets_bounded.
  simpl. by rewrite octets_sextets.
Qed.

Lemma length_encode bytes :
  String.length (Base64.encode bytes) = (4 * ((length bytes + 2) / 3))%nat.
Proof.
  destruct (encode_shape bytes) as (Hlist & _ & Hlen & _).
  by rewrite <- length_list_of, Hlist, length_app.
Qed.

(** ** Binary strings *)

Lemma codeUnits_fromCharCode b rest :
  Latin1.codeUnits (Latin1.fromCharCode b ++ rest)
  = cons b <$> Latin1.codeUnits rest.
Proof.
  unfold Latin1.fromCharCode. pose proof (N_ascii_bounded b) as Hb.
  destruct (N.ltb_spec (N_of_ascii b) 128) as [Hlt|Hge]; simpl.
  - by apply N.ltb_lt in Hlt as ->.
  - rewrite !N_ascii_embedding by div_lia.
    destruct (N.ltb_spec (192 + N_of_ascii b / 64) 128); [div_lia|].
    assert (((192 + N_of_ascii b / 64 =? 194) || (192 + N_of_ascii b / 64 =? 195))%N
            = true) as ->.
    { apply orb_true_iff. rewrite !N.eqb_eq. div_lia. }
    assert (((128 <=? 128 + N_of_ascii b mod 64) && (128 + N_of_ascii b mod 64 <? 192))%N
            = true) as ->.
    { apply andb_true_iff. rewrite N.leb_le, N.ltb_lt. div_lia. }
    replace ((192 + N_of_ascii b / 64 - 192) * 64 + (128 + N_of_ascii b mod 64 - 128))%N
      with (N_of_ascii b) by div_lia.
    by rewrite ascii_N_embedding.
Qed.

Lemma codeUnits_binaryString bytes :
  Latin1.codeUnits (Latin1.binaryString bytes) = Some bytes.
Proof.
  induction bytes as [|b bytes IH]; simpl; [done|].
  by rewrite codeUnits_fromCharCode, IH.
Qed.

Lemma append_cons a (s t : string) : String a s ++ t = String a (s ++ t).
Proof. reflexivity. Qed.

Lemma binaryString_codeUnits_fuel n : ∀ s bytes,
  (String.length s ≤ n)%nat →
  Latin1.codeUnits s = Some bytes → Latin1.binaryString bytes = s.
Proof.
  induction n as [|n IH]; intros [|a s] bytes Hlen Hs; simpl in *;
    try (by injection Hs as <-); [lia|].
  destruct (N.ltb_spec (N_of_ascii a) 128) as [Hlt|Hge].
  - destruct (Latin1.codeUnits s) as [rest|] eqn:Hrest; [|done].
    injection Hs as <-. simpl. unfold Latin1.fromCharCode.
    apply N.ltb_lt in Hlt as ->. simpl. f_equal. apply (IH s); [lia | done].
  - destruct (_ || _)%bool eqn:Hlead; [|done].
    destruct s as [|b s]; [done|].
    destruct (_ && _)%bool eqn:Hcont; [|done].
    destruct (Latin1.codeUnits s) as [rest|] eqn:Hrest; [|done].
    injection Hs as <-. simpl in *.
    apply orb_true_iff in Hlead. rewrite !N.eqb_eq in Hlead.
    apply andb_true_iff in Hcont. rewrite N.leb_le, N.ltb_lt in Hcont.
    pose proof (N_ascii_bounded b).
    unfold Latin1.fromCharCode. rewrite N_ascii_embedding by lia.
    destruct (N.ltb_spec ((N_of_ascii a - 192) * 64 + (N_of_ascii b - 128)) 128);
      [lia|].
    replace (192 + ((N_of_ascii a - 192) * 64 + (N_of_ascii b - 128)) / 64)%N
      with (N_of_ascii a) by div_lia.
    replace (128 + ((N_of_ascii a - 192) * 64 + (N_of_ascii b - 128)) mod 64)%N
      with (N_of_ascii b) by div_lia.
    rewrite !ascii_N_embedding.
    rewrite (IH s rest) by (lia || done). reflexivity.
Qed.

Lemma binaryString_codeUnits s bytes :
  Latin1.codeUnits s = Some bytes → Latin1.binaryString bytes = s.
Proof. by apply (binaryString_codeUnits_fuel (String.length s)). Qed.

Lemma append_assoc (s t u : string) : (s ++ t) ++ u = s ++ (t ++ u).
Proof.
  induction s as [|a s IH]; [done|]. rewrite !append_cons. by rewrite IH.
Qed.

Lemma binaryString_app (l1 l2 : Uint8Array) :
  Latin1.binaryString (l1 ++ l2)%list
  = Latin1.binaryString l1 ++ Latin1.binaryString l2.
Proof.
  induction l1 as [|b l1 IH]; simpl; [done|].
  by rewrite IH, append_assoc.
Qed.

Lemma append_empty_r s : s ++ "" = s.
Proof. induction s as [|a s IH]; [done | by rewrite append_cons, IH]. Qed.

(** The loop of [arrayBufferToBase64] builds the binary string of the
    buffer. *)
Lemma binary_loop (todo : Uint8Array) : ∀ (done : Uint8Array) binary,
  fold_left
    (λ binary i,
       binary ++ Latin1.fromCharCode (nullish ((done ++ todo)%list !! i) (ascii_of_N 0)))
    (seq (length done) (length todo)) binary
  = binary ++ Latin1.binaryString todo.
Proof.
  induction todo as [|b todo IH]; intros done binary; simpl.
  - by rewrite append_empty_r.
  - rewrite lookup_app_r, Nat.sub_diag by lia. simpl.
    specialize (IH (done ++ [b])%list).
    rewrite length_app in IH. simpl in IH.
    replace (length done + 1)%nat with (S (length done)) in IH by lia.
    rewrite <- app_assoc in IH. simpl in IH. rewrite IH.
    by rewrite <- append_assoc.
Qed.

Lemma arrayBufferToBase64_encode buffer :
  arrayBufferToBase64 buffer = Done (Base64.encode buffer).
Proof.
  unfold arrayBufferToBase64. cbv zeta.
  pose proof (binary_loop buffer [] "") as Hloop. cbn [app length] in Hloop.
  etrans; [exact (f_equal btoa Hloop)|].
  change ("" ++ Latin1.binaryString buffer) with (Latin1.binaryString buffer).
  unfold btoa. by rewrite codeUnits_binaryString.
Qed.

Lemma atob_encode bytes :
  atob (Base64.encode bytes) = Done (Latin1.binaryString bytes).
Proof. unfold atob. by rewrite decode_encode. Qed.

(** ** URI components *)

Lemma hexValue_hexDigit n : (n < 16)%N → hexValue (hexDigit n) = Some n.
Proof.
  intros Hn.
  pose proof (below 16
    (λ n, match hexValue (hexDigit n) with
          | Some m => N.eqb m n
          | None => false
          end) eq_refl n Hn) as H.
  simpl in H. destruct (hexValue _) as [m|]; [|done].
  by apply N.eqb_eq in H as ->.
Qed.

Lemma isUnreserved_percent a : isUnreserved a = true → Ascii.eqb a "%" = false.
Proof.
  destruct a as [[] [] [] [] [] [] [] []]; vm_compute; intros H;
    try discriminate H; done.
Qed.

Lemma tokens_lit a rest :
  Ascii.eqb a "%" = false → tokens (a :: rest) = cons (Lit a) <$> tokens rest.
Proof. intros Ha. cbn [tokens]. by rewrite Ha. Qed.

Lemma tokens_esc x y rest ts :
  (x < 16)%N → (y < 16)%N → tokens rest = Some ts →
  tokens ("%"%char :: hexDigit x :: hexDigit y :: rest)
  = Some (Esc (x * 16 + y) :: ts).
Proof.
  intros Hx Hy Hts. cbn [tokens Ascii.eqb Bool.eqb].
  by rewrite !hexValue_hexDigit, Hts.
Qed.

(** Decoding undoes encoding on text below U+0080. *)
Lemma unescape_escape l :
  Forall (λ a, (N_of_ascii a < 128)%N) l →
  tokens (flat_map (λ a, if isUnreserved a then [a] else escape a) l)
    ≫= unescape
  = Some l.
Proof.
  induction 1 as [|a l Ha _ IH]; [done|].
  cbn [flat_map].
  destruct (tokens (flat_map _ l)) as [ts|] eqn:Hts; [|done].
  cbn in IH.
  destruct (isUnreserved a) eqn:Hun.
  - cbn [app]. rewrite (tokens_lit a _ (isUnreserved_percent a Hun)), Hts.
    cbn. by rewrite IH.
  - unfold escape. cbn [app].
    rewrite (tokens_esc _ _ _ ts) by (done || div_lia).
    replace (N_of_ascii a / 16 * 16 + N_of_ascii a mod 16)%N
      with (N_of_ascii a) by div_lia.
    cbn. apply N.ltb_lt in Ha as ->. rewrite IH. cbn.
    by rewrite ascii_N_embedding.
Qed.

Lemma decode_encode_component s :
  Forall (λ a, (N_of_ascii a < 128)%N) (list_ascii_of_string s) →
  decodeURIComponent (encodeURIComponent s) = Done s.
Proof.
  intros Hs. unfold decodeURIComponent, encodeURIComponent.
  rewrite list_ascii_of_string_of_list_ascii, unescape_escape by done.
  by rewrite string_of_list_ascii_of_string.
Qed.

Lemma encoded_char_safe a :
  (plain a || Ascii.eqb a "=")%bool = true →
  forallb urlSafe (if isUnreserved a then [a] else escape a) = true.
Proof.
  destruct a as [[] [] [] [] [] [] [] []]; vm_compute; intros H;
    try discriminate H; done.
Qed.

Lemma encoded_safe l :
  Forall (λ a, (plain a || Ascii.eqb a "=")%bool = true) l →
  forallb urlSafe
    (flat_map (λ a, if isUnreserved a then [a] else escape a) l) = true.
Proof.
  induction 1 as [|a l Ha _ IH]; [done|].
  cbn [flat_map]. rewrite forallb_app, IH, encoded_char_safe; done.
Qed.

(** The characters of an encoding: the alphabet and the padding. *)
Lemma encode_chars bytes :
  Forall (λ a, (plain a || Ascii.eqb a "=")%bool = true)
    (list_ascii_of_string (Base64.encode bytes)).
Proof.
  destruct (encode_shape bytes) as (-> & Hbody & _ & Hpad & _).
  apply Forall_app. split.
  - eapply Forall_impl; [exact Hbody|]. by intros a ->.
  - by destruct Hpad as [->|[->| ->]]; repeat constructor.
Qed.

Lemma encode_ascii bytes :
  Forall (λ a, (N_of_ascii a < 128)%N)
    (list_ascii_of_string (Base64.encode bytes)).
Proof.
  eapply Forall_impl; [apply encode_chars|].
  intros a Ha. apply orb_true_iff in Ha as [Ha|Ha].
  - by apply plain_facts.
  - apply Ascii.eqb_eq in Ha as ->. done.
Qed.

(** ** The media helpers *)

(** [arrayBufferToBase64] never throws: the binary string it hands to
    [btoa] has no code unit above 255.  What it returns is a lossless
    form of the buffer: decoding it as base64 gives the bytes back, and
    [atob] gives the binary string of the bytes. *)
Theorem arrayBufferToBase64_lossless buffer :
  ∃ text,
    arrayBufferToBase64 buffer = Done text
    ∧ Base64.decode text = Some buffer
    ∧ atob text = Done (Latin1.binaryString buffer).
Proof.
  exists (Base64.encode buffer).
  split; [apply arrayBufferToBase64_encode|].
  split; [apply decode_encode | apply atob_encode].
Qed.

(** The text [arrayBufferToBase64] returns has four characters for every
    three bytes of the buffer, the last group padded: its length is
    [4 * ceil(n / 3)], and every character is a letter, a digit, ["+"],
    ["/"] or ["="]. *)
Theorem arrayBufferToBase64_size buffer :
  ∃ text,
    arrayBufferToBase64 buffer = Done text
    ∧ String.length text = (4 * ((length buffer + 2) / 3))%nat
    ∧ Forall (λ a, (plain a || Ascii.eqb a "=")%bool = true)
        (list_ascii_of_string text).
Proof.
  exists (Base64.encode buffer).
  split; [apply arrayBufferToBase64_encode|].
  split; [apply length_encode | apply encode_chars].
Qed.

Section MediaFacts.
Context {F : Files}.

Lemma tryRead_run label file m :
  tryRead label file m
  = {| arrayBuffers :=
         arrayBuffers m ++ from_option (λ b, [Base64.encode b]) [] (loaded (label, file));
       console := console m ++ option_list (logged (label, file)) |}.
Proof.
  unfold tryRead, fileToArrayBuffer, loaded, logged. simpl.
  destruct (readAsArrayBuffer file) as [buffer|message]; simpl.
  - rewrite arrayBufferToBase64_encode, app_nil_r. done.
  - by rewrite app_nil_r.
Qed.

Lemma fold_tryRead files : ∀ m,
  fold_left (λ m entry, tryRead entry.1 entry.2 m) files m
  = {| arrayBuffers :=
         arrayBuffers m ++ map Base64.encode (omap loaded files);
       console := console m ++ omap logged files |}.
Proof.
  induction files as [|[label file] files IH]; intros m; simpl.
  - rewrite !app_nil_r. by destruct m.
  - rewrite IH, tryRead_run. simpl.
    unfold loaded, logged. simpl.
    destruct (readAsArrayBuffer file); simpl; by rewrite <- !app_assoc.
Qed.

Lemma fold_present {A B S} (pick : A → option B) (body : B → S → S) xs : ∀ s,
  fold_left (λ s x, match pick x with Some y => body y s | None => s end) xs s
  = fold_left (λ s y, body y s) (omap pick xs) s.
Proof.
  induction xs as [|x xs IH]; intros s; simpl; [done|].
  rewrite IH. by destruct (pick x).
Qed.

Lemma omap_step {A B} (f : A → option B) x l :
  omap f (x :: l)
  = match f x with Some y => y :: omap f l | None => omap f l end.
Proof. reflexivity. Qed.

Lemma fold_left_agree {A S} (f g : S → A → S) xs :
  (∀ s x, f s x = g s x) → ∀ s, fold_left f xs s = fold_left g xs s.
Proof.
  intros Hfg. induction xs as [|x xs IH]; intros s; simpl; [done|].
  by rewrite Hfg, IH.
Qed.

Lemma serializeMediaForWorker_run formData :
  serializeMediaForWorker formData
  = {| arrayBuffers := map Base64.encode (omap loaded (mediaFiles formData));
       console := omap logged (mediaFiles formData) |}.
Proof.
  unfold serializeMediaForWorker, mediaFiles.
  destruct (eventArtwork formData) as [files|]; [|done].
  set (m0 := match head files with Some file => _ | None => _ end).
  transitivity
    (fold_left (λ m entry, tryRead entry.1 entry.2 m)
       (omap (λ ticket,
                file ← artwork ticket ≫= head;
                Some ("Error reading ticket artwork:", file))
             (tickets formData)) m0).
  { rewrite <- fold_present. apply fold_left_agree.
    intros m ticket. by destruct (artwork ticket ≫= head). }
  rewrite fold_tryRead. subst m0.
  destruct (head files) as [file|]; [|done].
  rewrite tryRead_run. simpl. unfold loaded at 1 3, logged at 1 3. simpl.
  by destruct (readAsArrayBuffer file).
Qed.

(** [serializeMediaForWorker] reads the first file of the event artwork
    and then the first artwork file of each ticket, in ticket order.  It
    returns the base64 text of the files that could be read, in that
    order; for every other file it logs the file reading error under the
    label of its kind, and nothing else is ever logged.  The files are
    those of [mediaFiles]: without event artwork there is none, also when
    tickets carry artwork.  Decoding the texts gives the bytes of the
    files that were read. *)
Theorem serializeMediaForWorker_reads formData :
  arrayBuffers (serializeMediaForWorker formData)
  = map Base64.encode (omap loaded (mediaFiles formData))
  ∧ console (serializeMediaForWorker formData)
    = omap logged (mediaFiles formData)
  ∧ mapM Base64.decode (arrayBuffers (serializeMediaForWorker formData))
    = Some (omap loaded (mediaFiles formData)).
Proof.
  rewrite serializeMediaForWorker_run. simpl.
  split; [done|]. split; [done|].
  induction (omap loaded (mediaFiles formData)) as [|b bs IH]; [done|].
  simpl. rewrite decode_encode. simpl. by rewrite IH.
Qed.

(** Every file [serializeMediaForWorker] tries to read ends up either in
    the array or in the log: the two together have one entry per file, at
    most one more than there are tickets; so the position of a text in
    the array is the position of its ticket only when every file before
    it was present and readable. *)
Theorem serializeMediaForWorker_count formData :
  (length (arrayBuffers (serializeMediaForWorker formData))
   + length (console (serializeMediaForWorker formData))
   = length (mediaFiles formData))%nat
  ∧ (length (mediaFiles formData) ≤ 1 + length (tickets formData))%nat.
Proof.
  rewrite serializeMediaForWorker_run. simpl. split.
  - rewrite length_map.
    induction (mediaFiles formData) as [|[label file] files IH]; [done|].
    rewrite !omap_step. unfold loaded at 1, logged at 1. cbn [snd].
    destruct (readAsArrayBuffer file); cbn [length]; lia.
  - unfold mediaFiles. destruct (eventArtwork formData) as [files|]; [|simpl; lia].
    rewrite length_app.
    assert (∀ (g : TicketInfoFormMetadata → option (string * string)) ts,
              (length (omap g ts) ≤ length ts)%nat) as Hle.
    { intros g ts. induction ts as [|t ts IH]; [done|].
      rewrite omap_step. destruct (g t); cbn [length]; lia. }
    specialize (Hle (λ ticket,
                file ← artwork ticket ≫= head;
                Some ("Error reading ticket artwork:", file)) (tickets formData)).
    destruct (head files); simpl; lia.
Qed.

End MediaFacts.

(** ** The wallet link *)

Section WalletFacts.
Context {W : Wallet}.

Lemma stringify_run data :
  stringifyEventDataForWallet (Some data)
  = match Latin1.codeUnits (JSON_stringify (walletData data)) with
    | Some bytes => Done (encodeURIComponent (Base64.encode bytes))
    | None => Raised InvalidCharacterError
    end.
Proof.
  unfold stringifyEventDataForWallet, btoa.
  by destruct (Latin1.codeUnits _).
Qed.

(** [decodeEventDataForWallet] undoes [stringifyEventDataForWallet] up to
    the JSON step: when the JSON text of the data has no character above
    U+00FF, a link is returned, and decoding the link parses exactly that
    text; when it has one, [btoa] rejects the text and no link is made. *)
Theorem wallet_link_round_trip data :
  let text := JSON_stringify (walletData data) in
  match Latin1.codeUnits text with
  | Some _ =>
      ∃ link,
        stringifyEventDataForWallet (Some data) = Done link
        ∧ decodeEventDataForWallet link = JSON_parse text
  | None =>
      stringifyEventDataForWallet (Some data) = Raised InvalidCharacterError
  end.
Proof.
  intros text. rewrite stringify_run. fold text.
  destruct (Latin1.codeUnits text) as [bytes|] eqn:Hunits; [|done].
  eexists. split; [reflexivity|].
  unfold decodeEventDataForWallet.
  rewrite decode_encode_component by apply encode_ascii.
  cbn [mbind outcome_bind]. rewrite atob_encode.
  cbn [mbind outcome_bind]. by rewrite (binaryString_codeUnits text bytes).
Qed.

(** A link [stringifyEventDataForWallet] returns is made of letters,
    digits and percent signs only: the ["+"], ["/"] and ["="] of the base64
    text are escaped, so the link can be put in a URL as it is. *)
Theorem wallet_link_url_safe data link :
  stringifyEventDataForWallet data = Done link →
  forallb urlSafe (list_ascii_of_string link) = true.
Proof.
  destruct data as [data|]; [|by intros [= <-]].
  rewrite stringify_run.
  destruct (Latin1.codeUnits _) as [bytes|]; [|done].
  intros [= <-]. unfold encodeURIComponent.
  rewrite list_ascii_of_string_of_list_ascii.
  apply encoded_safe, encode_chars.
Qed.

End WalletFacts.

Section OnPurchasedTickets.
#[local] Existing Instance Purchase.wallet.

Example wallet_link_of_two_tickets :
  stringifyEventDataForWallet (Some (Purchase.purchased ["VIP"; "Floor"]))
  = Done "e0xhdW5jaDpWSVA7Rmxvb3I7fQ%3D%3D".
Proof. by vm_compute. Qed.

(** A title with a character above U+00FF (here U+03A9) makes the link
    fail; one within Latin-1 (here U+00E9) does not. *)
Example wallet_link_beyond_latin1 :
  stringifyEventDataForWallet
    (Some (Purchase.purchased [String "206" (String "169" "")]))
  = Raised InvalidCharacterError
  ∧ stringifyEventDataForWallet
      (Some (Purchase.purchased [String "195" (String "169" "")]))
    = Done "e0xhdW5jaDrpO30%3D".
Proof. by vm_compute. Qed.

Lemma wallet_link_url_safe_witness :
  forallb urlSafe (list_ascii_of_string "e0xhdW5jaDpWSVA7Rmxvb3I7fQ%3D%3D") = true.
Proof.
  apply (wallet_link_url_safe (Some (Purchase.purchased ["VIP"; "Floor"]))).
  by vm_compute.
Defined.

End OnPurchasedTickets.

(** ** The payload builder, step by step *)

Lemma tail_drop {A} (l : list A) k : tail (drop k l) = drop (S k) l.
Proof.
  revert l. induction k as [|k IH]; intros [|x l]; simpl; done.
Qed.

(** The world after [k] iterations of the loop. *)
Lemma iter_afterTicket k w :
  let w' := Nat.iter k afterTicket w in
  localStorage w' = localStorage w
  ∧ clock w' = clock w
  ∧ reads w' = (reads w + 2 * k)%nat
  ∧ draws w' = draws w
  ∧ ticketArtworkCids w' = drop k (ticketArtworkCids w)
  ∧ calls w' = (concat (replicate k ticketCalls) ++ calls w)%list.
Proof.
  induction k as [|k (Hstore & Hclock & Hreads & Hdraws & Hcids & Hcalls)];
    simpl; [by rewrite Nat.add_0_r, drop_0|].
  rewrite Hstore, Hclock, Hreads, Hdraws, Hcids, Hcalls, tail_drop.
  repeat split; try done. lia.
Qed.

Section StepFacts.
Context {P : Platform}.


(** One iteration, when it returns: what it appends. *)
Lemma ticketStep_appends eventId st ticket w st' w' :
  ticketStep eventId st ticket w = (Ok st', w') →
  w' = afterTicket w
  ∧ d_drop_configs st'
    = (d_drop_configs st
       ++ [dropConfigOf eventId (clock w (S (reads w)))
             (head (ticketArtworkCids w)) ticket])%list
  ∧ d_asset_datas st' = (d_asset_datas st ++ [claimTwice])%list.
Proof.
  unfold ticketStep, afterTicket, dropConfigOf, claimTwice.
  cbn [mbind M_bind Date_now shift lift mret M_ret
       clock reads localStorage draws ticketArtworkCids calls].
  destruct (listingPrice ticket) as [amount|e]; [|discriminate].
  by intros [= <- <-].
Qed.

(** The loop stops after whole iterations: after all of them when it
    returns, after the first one whose price does not parse otherwise. *)
Lemma forOf_ticketStep_world eventId ts : ∀ st w,
  ∃ k,
    (k ≤ length ts)%nat
    ∧ (forOf (ticketStep eventId) ts st w).2 = Nat.iter k afterTicket w
    ∧ ∀ st', (forOf (ticketStep eventId) ts st w).1 = Ok st' → k = length ts.
Proof.
  induction ts as [|t ts IH]; intros st w.
  - exists 0%nat. by repeat split.
  - pose proof (ticketStep_run eventId st t w) as Hstep.
    cbn [forOf]. unfold mbind, M_bind.
    destruct (listingPrice t) as [amount|e].
    + destruct Hstep as (st1 & -> & _).
      destruct (IH st1 (afterTicket w)) as (k & Hk & Hw & Hok).
      exists (S k). rewrite Nat.iter_succ_r. simpl. repeat split; [lia | done |].
      intros st' Hst'. by rewrite (Hok st' Hst').
    + rewrite Hstep. exists 1%nat. simpl. repeat split; [lia | done].
Qed.

(** The loop, when it returns: the configurations and asset data it
    appends, ticket by ticket. *)
Lemma forOf_ticketStep_appends eventId ts : ∀ st w st' w',
  forOf (ticketStep eventId) ts st w = (Ok st', w') →
  d_drop_configs st'
  = (d_drop_configs st
     ++ imap (λ i ticket,
                dropConfigOf eventId (clock w (S (reads w) + 2 * i)%nat)
                  (ticketArtworkCids w !! i) ticket) ts)%list
  ∧ d_asset_datas st'
    = (d_asset_datas st ++ replicate (length ts) claimTwice)%list.
Proof.
  induction ts as [|t ts IH]; intros st w st' w' Hrun.
  - injection Hrun as <- <-. simpl. by rewrite !app_nil_r.
  - cbn [forOf] in Hrun. unfold mbind, M_bind in Hrun.
    destruct (ticketStep eventId st t w) as [[st1|e] w1] eqn:Hstep; [|done].
    apply ticketStep_appends in Hstep as (-> & Hconfigs & Hassets).
    destruct (IH _ _ _ _ Hrun) as [-> ->].
    rewrite Hconfigs, Hassets, imap_cons, <- !app_assoc. simpl.
    rewrite Nat.add_0_r, head_lookup. split; [|done].
    f_equal. f_equal. apply imap_ext. intros i ticket _. simpl.
    rewrite lookup_tail. do 2 f_equal. lia.
Qed.

End StepFacts.

Section BuilderDetailFacts.
Context {P : Platform}.

(** [createPayload] with a master key, with the event metadata written
    out. *)
Lemma createPayload_run_keys accountId formData eventArtworkCid eventId w key :
  lookup_key "MASTER_KEY" (localStorage w) = Some key →
  Str.falsy (Some key) = false →
  createPayload accountId formData eventArtworkCid eventId w
  = let eventMetadata :=
      eventMetadataOf formData eventArtworkCid eventId key w in
    match forOf (ticketStep eventId) (tickets formData) noDrops (afterKeys w) with
    | (Ok st, w') =>
        match calculateDepositCost eventMetadata (tickets formData)
                (d_ticket_information st) with
        | Ok costBreakdown =>
            (Ok (actionsOf accountId formData eventId eventMetadata st
                   costBreakdown,
                 d_drop_ids st), w')
        | Throw e => (Throw e, w')
        end
    | (Throw e, w') => (Throw e, w')
    end.
Proof.
  intros Hkey Hfalsy.
  unfold createPayload, localStorageGet, mbind, M_bind, eventMetadataOf.
  rewrite Hkey, Hfalsy.
  cbn [Date_now draw logCall clock reads localStorage draws ticketArtworkCids calls
       nullish].
  destruct (generateKeyPair (draws w)) as [publicKey privateKey].
  cbn [fst snd].
  destruct (encryptPrivateKey _ _ _) as [encrypted ivBase64].
  reflexivity.
Qed.

(** The world a call with a master key leaves: the keys are made once,
    then the loop runs whole iterations.  It runs all of them when the call
    returns, and also when it is the estimator that raises. *)
Lemma createPayload_world accountId formData eventArtworkCid eventId w :
  Str.falsy (lookup_key "MASTER_KEY" (localStorage w)) = false →
  ∃ k,
    (k ≤ length (tickets formData))%nat
    ∧ (createPayload accountId formData eventArtworkCid eventId w).2
      = Nat.iter k afterTicket (afterKeys w)
    ∧ ∀ r, (createPayload accountId formData eventArtworkCid eventId w).1 = Ok r →
           k = length (tickets formData).
Proof.
  intros Hfalsy.
  destruct (falsy_false _ Hfalsy) as [key Hkey]. rewrite Hkey in Hfalsy.
  rewrite (createPayload_run_keys _ _ _ _ _ key Hkey Hfalsy). cbv zeta.
  destruct (forOf_ticketStep_world eventId (tickets formData) noDrops (afterKeys w))
    as (k & Hk & Hw & Hok).
  exists k. split; [done|].
  destruct (forOf _ _ _ _) as [[st|e] w1]; simpl in *.
  - specialize (Hok st eq_refl).
    destruct (calculateDepositCost _ _ _); simpl; by split.
  - by split.
Qed.

End BuilderDetailFacts.

Section BuilderDetailContract.
Context {P : Platform}.

(** With a master key, whatever the outcome, [createPayload] leaves the
    effects of the key generation and of [k] whole iterations of the loop
    over the tickets, where [k] is the number of tickets when it returns:
    local storage is only read, the clock is read once and then twice per
    iteration, three random draws are made however many tickets there are,
    the caller's array loses one element per iteration, and the calls are
    logged in that order. *)
Theorem createPayload_footprint accountId formData eventArtworkCid eventId w :
  Str.falsy (lookup_key "MASTER_KEY" (localStorage w)) = false →
  ∃ k w',
    (createPayload accountId formData eventArtworkCid eventId w).2 = w'
    ∧ (k ≤ length (tickets formData))%nat
    ∧ (∀ r, (createPayload accountId formData eventArtworkCid eventId w).1 = Ok r →
            k = length (tickets formData))
    ∧ localStorage w' = localStorage w
    ∧ clock w' = clock w
    ∧ reads w' = (reads w + 1 + 2 * k)%nat
    ∧ draws w' = (draws w + 3)%nat
    ∧ ticketArtworkCids w' = drop k (ticketArtworkCids w)
    ∧ calls w'
      = (concat (replicate k ticketCalls)
         ++ [CallExportPublicKey; CallEncryptPrivateKey;
             CallDeriveKeyFromPassword; CallGetRandomValues;
             CallGenerateKeyPair; CallDateNow]
         ++ calls w)%list.
Proof.
  intros Hfalsy.
  destruct (createPayload_world accountId formData eventArtworkCid eventId w Hfalsy)
    as (k & Hk & Hw & Hok).
  exists k. eexists. split; [exact Hw|].
  destruct (iter_afterTicket k (afterKeys w))
    as (Hstore & Hclock & Hreads & Hdraws & Hcids & Hcalls).
  rewrite Hstore, Hclock, Hreads, Hdraws, Hcids, Hcalls. simpl.
  repeat split; try done; lia.
Qed.


(** A form without tickets: with a master key the keys are made, the loop
    does nothing, and the estimator's division by the number of tickets
    raises a [RangeError]; nothing is returned. *)
Theorem createPayload_no_tickets accountId formData eventArtworkCid eventId w :
  Str.falsy (lookup_key "MASTER_KEY" (localStorage w)) = false →
  tickets formData = [] →
  createPayload accountId formData eventArtworkCid eventId w
  = (Throw RangeError, afterKeys w).
Proof.
  intros Hfalsy Htickets.
  destruct (falsy_false _ Hfalsy) as [key Hkey]. rewrite Hkey in Hfalsy.
  rewrite (createPayload_run_keys _ _ _ _ _ key Hkey Hfalsy). cbv zeta.
  rewrite Htickets. cbn [forOf mret M_ret]. by rewrite calculateDepositCost_run.
Qed.

(** When [createPayload] returns, the drop configurations and asset data
    of the action are in ticket order: the i-th configuration carries the
    i-th ticket's name and description, the i-th element of the caller's
    array as artwork, and the serialised extra with the event identifier,
    the ticket's prices (["0"] when absent), supply and limits, and as date
    of creation the clock reading taken right after the one in the drop
    identifier; both allowlists hold the marketplace contract alone; and
    every drop gets the same asset data, one asset claimed with two uses. *)
Theorem createPayload_drops accountId formData eventArtworkCid eventId w
    actions dropIds w' :
  createPayload accountId formData eventArtworkCid eventId w
  = (Ok (actions, dropIds), w') →
  ∃ params,
    actions = [FunctionCall params]
    ∧ drop_configs (args params)
      = imap (λ i ticket,
                dropConfigOf eventId (clock w (reads w + 2 + 2 * i)%nat)
                  (ticketArtworkCids w !! i) ticket)
          (tickets formData)
    ∧ asset_datas (args params)
      = replicate (length (tickets formData)) claimTwice.
Proof.
  intros Hrun.
  destruct (createPayload_ok _ _ _ _ _ _ _ _ Hrun)
    as (eventMetadata & st & costBreakdown & _ & Hloop & _ & -> & ->).
  apply forOf_ticketStep_appends in Hloop as [Hconfigs Hassets].
  eexists. split; [reflexivity|]. simpl. rewrite Hconfigs, Hassets. simpl.
  split; [|done]. apply imap_ext. intros i ticket _. simpl.
  do 2 f_equal. lia.
Qed.


End BuilderDetailContract.

(** ** Prices in whole NEAR *)

Lemma isDigit_facts a :
  isDigit a = true →
  Ascii.eqb a "," = false ∧ Ascii.eqb a "." = false ∧ Str.is_space a = false.
Proof.
  destruct a as [[] [] [] [] [] [] [] []]; vm_compute; intros H;
    try discriminate H; done.
Qed.

Lemma pretty_N_char_digit x : isDigit (pretty_N_char x) = true.
Proof. unfold pretty_N_char. by repeat case_match. Qed.

Lemma pretty_N_char_nonzero x :
  (0 < x < 10)%N → Ascii.eqb (pretty_N_char x) "0" = false.
Proof.
  intros Hx. unfold pretty_N_char. repeat case_match; try done; lia.
Qed.

Lemma pretty_N_go_digits x : ∀ s,
  allDigits s = true → allDigits (pretty_N_go x s) = true.
Proof.
  induction (N.lt_wf_0 x) as [x _ IH]; intros s Hs.
  assert (x = 0 ∨ 0 < x)%N as [->|Hpos] by lia.
  - by rewrite pretty_N_go_0.
  - rewrite pretty_N_go_step by done. apply IH.
    + by apply N.div_lt.
    + simpl. by rewrite Hs, pretty_N_char_digit.
Qed.

Lemma pretty_N_go_append x : ∀ s, pretty_N_go x s = pretty_N_go x "" ++ s.
Proof.
  induction (N.lt_wf_0 x) as [x _ IH]; intros s.
  assert (x = 0 ∨ 0 < x)%N as [->|Hpos] by lia.
  - by rewrite !pretty_N_go_0.
  - rewrite (pretty_N_go_step x s), (pretty_N_go_step x "") by done.
    assert (x `div` 10 < x)%N as Hlt by (by apply N.div_lt).
    rewrite (IH _ Hlt (String _ s)), (IH _ Hlt (String _ "")).
    by rewrite append_assoc.
Qed.

(** The numeral of a positive number starts with a digit that is not
    zero. *)
Lemma pretty_N_go_leading x : ∀ s,
  (0 < x)%N →
  ∃ a rest, pretty_N_go x s = String a rest ∧ Ascii.eqb a "0" = false.
Proof.
  induction (N.lt_wf_0 x) as [x _ IH]; intros s Hpos.
  rewrite pretty_N_go_step by done.
  destruct (N.eq_0_gt_0_cases (x `div` 10)) as [Hz|Hnz].
  - rewrite Hz, pretty_N_go_0. eexists _, _. split; [done|].
    apply pretty_N_char_nonzero. div_lia.
  - apply IH; [by apply N.div_lt | done].
Qed.

Lemma pretty_times_ten (x : N) :
  (0 < x)%N → pretty (10 * x)%N = pretty x ++ "0".
Proof.
  intros Hpos. unfold pretty, pretty_N.
  rewrite !decide_False by lia.
  rewrite pretty_N_go_step by lia.
  replace ((10 * x) `div` 10)%N with x by div_lia.
  replace ((10 * x) `mod` 10)%N with 0%N by div_lia.
  apply pretty_N_go_append.
Qed.

Lemma repeat_snoc a k : Str.repeat a k ++ String a "" = Str.repeat a (S k).
Proof.
  induction k as [|k IH]; [done|].
  change (Str.repeat a (S k)) with (String a (Str.repeat a k)).
  by rewrite append_cons, IH.
Qed.

Lemma pretty_shift (x : N) (k : nat) :
  (0 < x)%N → pretty (x * 10 ^ N.of_nat k)%N = pretty x ++ Str.repeat "0" k.
Proof.
  intros Hpos. induction k as [|k IH].
  - by rewrite N.mul_1_r, append_empty_r.
  - rewrite Nat2N.inj_succ, N.pow_succ_r'.
    replace (x * (10 * 10 ^ N.of_nat k))%N with (10 * (x * 10 ^ N.of_nat k))%N
      by lia.
    rewrite pretty_times_ten by lia.
    by rewrite IH, append_assoc, repeat_snoc.
Qed.

(** What the string methods do to a string of digits: nothing. *)
Lemma digits_untouched s :
  allDigits s = true →
  Str.remove "," s = s ∧ Str.trimStart s = s ∧ Str.trimEnd s = s
  ∧ Str.split "." s = [s].
Proof.
  induction s as [|a s IH]; [done|]. simpl.
  intros [Ha Hs]%andb_prop.
  destruct (isDigit_facts a Ha) as (-> & -> & ->).
  destruct (IH Hs) as (-> & _ & -> & ->).
  repeat split. by destruct s.
Qed.

Lemma pretty_N_digits (n : N) : allDigits (pretty n) = true.
Proof.
  unfold pretty, pretty_N. case_decide; [done|].
  by apply pretty_N_go_digits.
Qed.

Section PriceFacts.
Context {P : Platform}.

(** A price that is a whole number of NEAR, written in decimal, is listed
    as that number of yoctoNEAR: the number times [10^24], in decimal and
    without leading zeros. *)
Theorem listingPrice_whole ticket (n : N) :
  priceNear ticket = Some (pretty n) →
  listingPrice ticket = Ok (pretty (n * 10 ^ 24)%N).
Proof.
  intros Hprice. unfold listingPrice. rewrite Hprice. cbn [nullish].
  assert (n = 0 ∨ 0 < n)%N as [->|Hpos] by lia; [by vm_compute|].
  unfold parseNearAmount, cleanupAmount, Str.trim.
  destruct (digits_untouched _ (pretty_N_digits n)) as (-> & -> & -> & ->).
  assert (∃ a rest, pretty n = String a rest ∧ Ascii.eqb a "0" = false)
    as (a & rest & Hn & Ha).
  { unfold pretty, pretty_N. rewrite decide_False by lia.
    by apply pretty_N_go_leading. }
  rewrite (pretty_shift n 24 Hpos : pretty (n * 10 ^ 24)%N = _).
  rewrite Hn. cbn -[Str.repeat String.append].
  unfold trimLeadingZeroes. rewrite !append_cons.
  cbn [Str.dropLeading]. by rewrite Ha.
Qed.

End PriceFacts.

(** ** The web functions and the media helpers, evaluated *)

Example btoa_hello : btoa "hello world" = Done "aGVsbG8gd29ybGQ=".
Proof. reflexivity. Qed.

Example atob_hello : atob "aGVsbG8gd29ybGQ=" = Done "hello world".
Proof. reflexivity. Qed.

Example atob_bad_length : atob "aGVsb" = Raised InvalidCharacterError.
Proof. reflexivity. Qed.

Example encodeURIComponent_reserved :
  encodeURIComponent "a+b/c= d" = "a%2Bb%2Fc%3D%20d".
Proof. reflexivity. Qed.

Example decodeURIComponent_truncated :
  decodeURIComponent "%C3" = Raised URIError
  ∧ decodeURIComponent "%C3%A9" = Done (String "195" (String "169" "")).
Proof. by vm_compute. Qed.

Example arrayBufferToBase64_Man :
  arrayBufferToBase64 (list_ascii_of_string "Man") = Done "TWFu"
  ∧ arrayBufferToBase64 (list_ascii_of_string "Ma") = Done "TWE="
  ∧ arrayBufferToBase64 [ascii_of_nat 255; ascii_of_nat 0] = Done "/wA=".
Proof. by vm_compute. Qed.

Section OnTheDisk.
#[local] Existing Instance Disk.files.

(** An event with a poster and four tickets: one with artwork, one
    without, one whose file cannot be read, one with an empty file list.
    Two texts are returned and one error is logged. *)
Example serializeMediaForWorker_mixed :
  serializeMediaForWorker
    (Disk.form (Some ["poster.png"])
       [Disk.ticket "VIP" (Some ["vip.png"]); Disk.ticket "Floor" None;
        Disk.ticket "Balcony" (Some ["broken.png"]); Disk.ticket "Bar" (Some [])])
  = {| arrayBuffers := ["cG9zdGVyLnBuZw=="; "dmlwLnBuZw=="];
       console :=
         [("Error reading ticket artwork:",
           Thrown (Error "File reading error: Unknown error"))] |}.
Proof. by vm_compute. Qed.

(** Without event artwork the artwork of the tickets is not read. *)
Example serializeMediaForWorker_no_event_artwork :
  serializeMediaForWorker
    (Disk.form None [Disk.ticket "VIP" (Some ["vip.png"])])
  = {| arrayBuffers := []; console := [] |}.
Proof. reflexivity. Qed.

End OnTheDisk.

(** ** The payload builder's details, on the sample platform *)

Section DetailOnTheSamplePlatform.
#[local] Existing Instance Sample.platform.

Lemma createPayload_footprint_witness :
  Str.falsy
    (lookup_key "MASTER_KEY"
       (localStorage (Sample.world Sample.withKey ["cid1"; "cid2"; "cid3"])))
  = false
  ∧ ∃ w',
      (createPayload "alice.testnet"
         (Sample.form [Sample.earlyFree; Sample.general]) "bafyevent" "ev1"
         (Sample.world Sample.withKey ["cid1"; "cid2"; "cid3"])).2 = w'
      ∧ reads w' = 5%nat
      ∧ draws w' = 3%nat
      ∧ ticketArtworkCids w' = ["cid3"].
Proof.
  split; [reflexivity|].
  destruct
    (createPayload_footprint "alice.testnet"
       (Sample.form [Sample.earlyFree; Sample.general]) "bafyevent" "ev1"
       (Sample.world Sample.withKey ["cid1"; "cid2"; "cid3"]) eq_refl)
    as (k & w' & Hw & _ & Hk & _ & _ & Hreads & Hdraws & Hcids & _).
  assert (∃ r,
            (createPayload "alice.testnet"
               (Sample.form [Sample.earlyFree; Sample.general]) "bafyevent" "ev1"
               (Sample.world Sample.withKey ["cid1"; "cid2"; "cid3"])).1 = Ok r)
    as [r Hr] by (eexists; by vm_compute).
  rewrite (Hk r Hr) in Hreads, Hcids.
  exists w'. split; [exact Hw|]. split; [exact Hreads|].
  split; [exact Hdraws | exact Hcids].
Defined.


Lemma createPayload_no_tickets_witness :
  createPayload "alice.testnet" (Sample.form []) "bafyevent" "ev1"
    (Sample.world Sample.withKey ["cid1"])
  = (Throw RangeError, afterKeys (Sample.world Sample.withKey ["cid1"])).
Proof.
  exact (createPayload_no_tickets "alice.testnet" (Sample.form []) "bafyevent"
           "ev1" (Sample.world Sample.withKey ["cid1"]) eq_refl eq_refl).
Defined.

Lemma createPayload_drops_witness :
  ∃ params dropIds w',
    createPayload "alice.testnet"
      (Sample.form [Sample.earlyFree; Sample.general]) "bafyevent" "ev1"
      (Sample.world Sample.withKey ["cid1"])
    = (Ok ([FunctionCall params], dropIds), w')
    ∧ drop_configs (args params)
      = [dropConfigOf "ev1" 1700000000000 (Some "cid1") Sample.earlyFree;
         dropConfigOf "ev1" 1700000000000 None Sample.general]
    ∧ asset_datas (args params) = [claimTwice; claimTwice].
Proof.
  assert (∃ actions dropIds w',
            createPayload "alice.testnet"
              (Sample.form [Sample.earlyFree; Sample.general]) "bafyevent" "ev1"
              (Sample.world Sample.withKey ["cid1"])
            = (Ok (actions, dropIds), w')) as (actions & dropIds & w' & Hrun)
    by (eexists _, _, _; by vm_compute).
  destruct (createPayload_drops _ _ _ _ _ _ _ _ Hrun)
    as (params & -> & Hconfigs & Hassets).
  exists params, dropIds, w'. split; [exact Hrun|].
  split; [exact Hconfigs | exact Hassets].
Defined.


Lemma listingPrice_whole_witness :
  listingPrice (Sample.ticket "VIP" None (Some "3"))
  = Ok "3000000000000000000000000".
Proof.
  generalize (listingPrice_whole (Sample.ticket "VIP" None (Some "3")) 3 eq_refl).
  vm_compute. exact (λ H, H).
Defined.

End DetailOnTheSamplePlatform.

(** ** When the payload builder returns *)

Section BuilderOutcomeFacts.
Context {P : Platform}.


End BuilderOutcomeFacts.

Section OutcomeOnTheSamplePlatform.
#[local] Existing Instance Sample.platform.


End OutcomeOnTheSamplePlatform.
